(** * 99techteam code challenge: a shallow embedding and its properties

    The repository holds three exercises:
    - problem 4: three implementations of "sum to n" (TypeScript);
    - problem 5: a news CRUD server (Express middleware, TypeScript);
    - problem 6: the design of a score-board service, given as documents
      with JavaScript snippets, SQL tables and flow diagrams.

    Each module below embeds the part of one exercise that a property
    talks about, and then states and proves the property. *)

From Stdlib Require Import ZArith QArith Qround Lia Bool Ascii String.
From Equations Require Import Equations.
From stdpp Require Import gmap strings list fin_maps pretty.

Local Open Scope Z_scope.

(** ** Results of code that may throw *)

Inductive result (E A : Type) : Type :=
| Ok (a : A)
| Throw (e : E).
Arguments Ok {E A} a.
Arguments Throw {E A} e.

#[global] Instance result_bind {E} : MBind (result E) :=
  fun A B k r =>
    match r with
    | Ok a => k a
    | Throw e => Throw e
    end.

Definition throws {E A} (r : result E A) : bool :=
  match r with
  | Ok _ => false
  | Throw _ => true
  end.

(** A value together with the equation saying what was tested. *)
Definition inspect {A : Type} (x : A) : {y : A | x = y} := exist _ x eq_refl.

(** * Problem 4: three ways to sum to n *)

Module SumToN.

(** A JavaScript [number]: a finite value (doubles are rationals), NaN or an
    infinity.  Integer arithmetic on doubles is exact while every value stays
    within [2^53] in magnitude; on that range the integers below are the
    doubles of the program. *)
Inductive number : Type :=
| Finite (q : Q)
| NaN
| Infinity (negative : bool).

Definition of_int (z : Z) : number := Finite (inject_Z z).

(** The integer a finite number rounds down to. *)
Definition int_of (n : number) : Z :=
  match n with
  | Finite q => Qfloor q
  | _ => 0
  end.

(** [Number.isInteger(n)] *)
Definition Number_isInteger (n : number) : bool :=
  match n with
  | Finite q => Qeq_bool q (inject_Z (Qfloor q))
  | _ => false
  end.

(** [n < k] and [n > k] for an integer constant [k]; any comparison with NaN
    is false. *)
Definition lt_int (n : number) (k : Z) : bool :=
  match n with
  | Finite q => negb (Qle_bool (inject_Z k) q)
  | NaN => false
  | Infinity negative => negative
  end.

Definition gt_int (n : number) (k : Z) : bool :=
  match n with
  | Finite q => negb (Qle_bool q (inject_Z k))
  | NaN => false
  | Infinity negative => negb negative
  end.

(** [n === k] *)
Definition eq_int (n : number) (k : Z) : bool :=
  match n with
  | Finite q => Qeq_bool q (inject_Z k)
  | _ => false
  end.

(** [n - 1] *)
Definition minus_one (n : number) : number :=
  match n with
  | Finite q => Finite (q - 1)
  | other => other
  end.

(** [Math.floor(Math.sqrt(Number.MAX_SAFE_INTEGER * 2))], the value the
    source's comment gives. *)
Definition MAX_SAFE_FORMULA_INPUT : Z := 134217727.
Definition MAX_SAFE_RECURSIVE_INPUT : Z := 10000.

(** What the three functions can throw: the two [Error]s of [validateInput],
    by their message, and the engine's "RangeError: Maximum call stack size
    exceeded". *)
Inductive error : Type :=
| NotNonNegativeInteger
| TooLarge (n : number) (context : option string)
| RangeError.

(** [validateInput(n, maxValue?, context?)] *)
Definition validateInput (n : number) (maxValue : option Z)
    (context : option string) : result error unit :=
  if negb (Number_isInteger n) || lt_int n 0 then Throw NotNonNegativeInteger
  else
    match maxValue with
    | Some m => if gt_int n m then Throw (TooLarge n context) else Ok tt
    | None => Ok tt
    end.

(** [for (let i = 1; i <= n; i++) { sum += i; }] entered with the current
    [i] and [sum]. *)
Equations? for_loop (n i sum : Z) : Z by wf (Z.to_nat (n + 1 - i)) lt :=
  for_loop n i sum with inspect (i <=? n) := {
    | exist _ true Hle => for_loop n (i + 1) (sum + i)
    | exist _ false _ => sum
  }.
Proof. apply Z.leb_le in Hle. lia. Qed.

Definition sum_to_n_a (n : number) : result error Z :=
  _ ← validateInput n None None;
  if eq_int n 0 then Ok 0
  else Ok (for_loop (int_of n) 1 0).

Definition sum_to_n_b (n : number) : result error Z :=
  _ ← validateInput n (Some MAX_SAFE_FORMULA_INPUT) (Some "formula"%string);
  if eq_int n 0 then Ok 0
  else let z := int_of n in Ok ((z * (z + 1)) / 2).

(** What a passed validation says about [n]: it is a finite, integral,
    non-negative number, below the maximum when one was given. *)
Lemma validateInput_Ok_inv (n : number) (maxValue : option Z) (context : option string) (u : unit) :
  validateInput n maxValue context = Ok u ->
  exists q, n = Finite q /\ (q == inject_Z (Qfloor q))%Q /\ 0 <= Qfloor q /\
            match maxValue with Some m => Qfloor q <= m | None => True end.
Proof.
  unfold validateInput. intros H.
  destruct (negb (Number_isInteger n) || lt_int n 0) eqn:Hguard; [discriminate|].
  apply orb_false_elim in Hguard as [Hint Hneg].
  apply negb_false_iff in Hint.
  destruct n as [q| |neg]; simpl in Hint; try discriminate.
  exists q. apply Qeq_bool_iff in Hint.
  simpl in Hneg. apply negb_false_iff, Qle_bool_iff in Hneg.
  assert (Hq0 : 0 <= Qfloor q).
  { rewrite Hint in Hneg. rewrite <- Zle_Qle in Hneg. exact Hneg. }
  repeat split; trivial.
  destruct maxValue as [m|]; [|exact I].
  destruct (gt_int (Finite q) m) eqn:Hgt; [discriminate|].
  simpl in Hgt. apply negb_false_iff, Qle_bool_iff in Hgt.
  rewrite Hint in Hgt. rewrite <- Zle_Qle in Hgt. exact Hgt.
Qed.

Lemma Qfloor_minus_one (q : Q) :
  (q == inject_Z (Qfloor q))%Q -> Qfloor (q - 1) = Qfloor q - 1.
Proof.
  intros Hq.
  assert (Heq : (q - 1 == inject_Z (Qfloor q - 1))%Q).
  { rewrite Hq at 1. unfold Z.sub. rewrite inject_Z_plus, inject_Z_opp. reflexivity. }
  rewrite Heq. apply Qfloor_Z.
Qed.

Lemma eq_int_false (q : Q) (k : Z) :
  (q == inject_Z (Qfloor q))%Q -> eq_int (Finite q) k = false -> Qfloor q <> k.
Proof.
  intros Hq Hk Heq. simpl in Hk.
  assert (Qeq_bool q (inject_Z k) = true); [|congruence].
  apply Qeq_bool_iff. rewrite Hq, Heq. reflexivity.
Qed.

(** [sum_to_n_c] on a call stack with room for [stack] nested calls of the
    function.  The recursion is not tail-call optimised: the call for [n]
    stays on the stack while the calls for [n - 1], ..., [1] run ("Call stack
    depth = n"), and a call for which no room is left throws [RangeError].
    The validation runs again in every call. *)
Fixpoint sum_to_n_c_on (stack : nat) (n : number) : result error Z :=
  match stack with
  | O => Throw RangeError
  | S room =>
      _ ← validateInput n (Some MAX_SAFE_RECURSIVE_INPUT) (Some "recursive"%string);
      if eq_int n 0 || eq_int n 1 then Ok (int_of n)
      else r ← sum_to_n_c_on room (minus_one n); Ok (int_of n + r)
  end.

(** [sum_to_n_c] as a function of [n] alone: what the recursion computes on
    a stack that does not run out. *)
Equations? sum_to_n_c (n : number) : result error Z by wf (Z.to_nat (int_of n)) lt :=
  sum_to_n_c n
    with inspect (validateInput n (Some MAX_SAFE_RECURSIVE_INPUT) (Some "recursive"%string)) := {
    | exist _ (Throw e) _ => Throw e
    | exist _ (Ok _) Hvalid with inspect (eq_int n 0 || eq_int n 1) := {
      | exist _ true _ => Ok (int_of n)
      | exist _ false Hrec => r ← sum_to_n_c (minus_one n); Ok (int_of n + r)
      }
    }.
Proof.
  apply validateInput_Ok_inv in Hvalid as (q & -> & Hq & Hq0 & _).
  apply orb_false_elim in Hrec as [H0 H1].
  apply (eq_int_false q 0 Hq) in H0. apply (eq_int_false q 1 Hq) in H1.
  cbn [minus_one int_of]. rewrite (Qfloor_minus_one q Hq). lia.
Qed.

End SumToN.

(** * Problem 5: the news server's middleware *)

Module News.

Local Open Scope string_scope.

(** ** constants/roles.ts *)

Inductive UserRole : Type := admin | editor | viewer.

#[global] Instance UserRole_eq_dec : EqDecision UserRole.
Proof. solve_decision. Defined.

(** The string each member of [USER_ROLES] stands for. *)
Definition role_string (r : UserRole) : string :=
  match r with
  | admin => "admin"
  | editor => "editor"
  | viewer => "viewer"
  end.

Definition ROLE_PERMISSIONS (role : UserRole) : list string :=
  match role with
  | admin => ["create"; "read"; "update"; "delete"; "manage_users"]
  | editor => ["create"; "read"; "update"; "delete"]
  | viewer => ["read"]
  end.

(** [Array.prototype.includes] *)
Definition includes {A : Type} `{EqDecision A} (l : list A) (x : A) : bool :=
  bool_decide (x ∈ l).

(** [ROLE_PERMISSIONS[role]?.includes(permission) || false] *)
Definition hasPermission (role : UserRole) (permission : string) : bool :=
  includes (ROLE_PERMISSIONS role) permission || false.

(** ** middleware/errorHandler.ts *)

(** A thrown value: an [AppError] (always operational, with its status code) or
    any other [Error], of which the handler reads [name], [message] and
    [code]. Both carry the stack that was captured when they were built. *)
Inductive Error : Type :=
| AppError (message : string) (statusCode : Z) (stack : string)
| OtherError (name message stack : string) (code : option Z).

Definition err_message (e : Error) : string :=
  match e with
  | AppError m _ _ => m
  | OtherError _ m _ _ => m
  end.

Definition err_stack (e : Error) : string :=
  match e with
  | AppError _ _ s => s
  | OtherError _ _ s _ => s
  end.

Inductive json : Type :=
| JBool (b : bool)
| JString (s : string).

(** [res.status(status).json(body)]; the body is the object's fields in order. *)
Record Response : Type := mkResponse {
  status : Z;
  body : list (string * json)
}.

(** [errorHandler(err, _req, res, _next)], with [process.env.NODE_ENV]
    ([None] when it is not set). *)
Definition errorHandler (NODE_ENV : option string) (err : Error) : Response :=
  match err with
  | AppError message statusCode _ =>
      mkResponse statusCode [("success", JBool false); ("message", JString message)]
  | OtherError name message _ code =>
      if String.eqb name "ValidationError" then
        mkResponse 400 [("success", JBool false);
                        ("message", JString "Validation error");
                        ("errors", JString message)]
      else if String.eqb name "CastError" then
        mkResponse 400 [("success", JBool false);
                        ("message", JString "Invalid ID format")]
      else if String.eqb name "MongoError" && bool_decide (code = Some 11000) then
        mkResponse 409 [("success", JBool false);
                        ("message", JString "Duplicate entry found")]
      else
        mkResponse 500
          ([("success", JBool false); ("message", JString "Internal server error")]
           ++ (if bool_decide (NODE_ENV = Some "development")
               then [("error", JString message)] else []))
  end.

Definition notFoundHandler (originalUrl : string) : Response :=
  mkResponse 404 [("success", JBool false);
                  ("message", JString ("Route " +:+ originalUrl +:+ " not found"))].

(** ** middleware/auth.ts *)

(** The payload [generateToken] signs: [{ id, email, role }]. *)
Record TokenPayload : Type := mkPayload {
  id : string;
  email : string;
  role : UserRole
}.

(** What [jwt.verify(token, JWT_SECRET)] does: it returns the decoded
    payload, or throws one of the library's three errors. *)
Inductive JwtVerify : Type :=
| Decoded (p : TokenPayload)
| JsonWebTokenError
| TokenExpiredError
| NotBeforeError.

Record UserDoc : Type := mkUser { isActive : bool }.
Record NewsDoc : Type := mkNews { title : string }.

(** The two collections the middleware reads and writes. *)
Record Database : Type := mkDb {
  users : gmap string UserDoc;
  news : gmap string NewsDoc
}.

(** [AuthRequest]: the header, the [:id] route parameter, the user attached by
    [authenticate], and the errors collected by the validation chains. *)
Record Request : Type := mkRequest {
  authorization : option string;
  params_id : string;
  user : option TokenPayload;
  validationErrors : list (string * string)
}.

Definition set_user (req : Request) (u : TokenPayload) : Request :=
  mkRequest (authorization req) (params_id req) (Some u) (validationErrors req).

Definition add_validationError (req : Request) (e : string * string) : Request :=
  mkRequest (authorization req) (params_id req) (user req) (validationErrors req ++ [e]).

(** [String.prototype.split] for a one-character separator. *)
Fixpoint split (sep : ascii) (s : string) : list string :=
  match s with
  | EmptyString => [EmptyString]
  | String c rest =>
      if Ascii.eqb c sep then EmptyString :: split sep rest
      else match split sep rest with
           | [] => [String c EmptyString]
           | h :: t => String c h :: t
           end
  end.

(** [roles.join(', ')] *)
Definition join (sep : string) (l : list string) : string := String.concat sep l.

(** What a middleware does with the request: [next()], [next(err)], or send
    the response itself. *)
Inductive Step : Type :=
| Next (req : Request)
| NextError (err : Error)
| Send (res : Response).

Section Middleware.

(** The [jsonwebtoken] library's verification with the server's secret, the
    stack text [Error.captureStackTrace] records, express-validator's
    [isMongoId], and the environment. *)
Variable jwt_verify : string -> JwtVerify.
Variable captured_stack : string.
Variable isMongoId : string -> bool.
Variable NODE_ENV : option string.

Definition new_AppError (message : string) (statusCode : Z) : Error :=
  AppError message statusCode captured_stack.

(** [verifyToken]: whatever [jwt.verify] throws becomes [null]. *)
Definition verifyToken (token : string) : option TokenPayload :=
  match jwt_verify token with
  | Decoded p => Some p
  | _ => None
  end.

(** [authenticate(req, _res, next)] *)
Definition authenticate (req : Request) (db : Database) : Step * Database :=
  match authorization req with
  | None =>
      (NextError (new_AppError "Authentication required. Please provide a valid token." 401), db)
  | Some authHeader =>
      if negb (String.prefix "Bearer " authHeader) then
        (NextError (new_AppError "Authentication required. Please provide a valid token." 401), db)
      else
        match split " "%char authHeader !! 1%nat ≫= verifyToken with
        | None => (NextError (new_AppError "Invalid or expired token." 401), db)
        | Some decoded =>
            match users db !! id decoded with
            | Some u =>
                if isActive u then (Next (set_user req decoded), db)
                else (NextError (new_AppError "User no longer exists or is inactive." 401), db)
            | None =>
                (NextError (new_AppError "User no longer exists or is inactive." 401), db)
            end
        end
  end.

(** [authorize(...roles)(req, _res, next)] *)
Definition authorize (roles : list UserRole) (req : Request) (db : Database)
    : Step * Database :=
  match user req with
  | None => (NextError (new_AppError "Authentication required." 401), db)
  | Some u =>
      if negb (includes roles (role u)) then
        (NextError
           (new_AppError ("Access denied. Required role(s): "
                          +:+ join ", " (role_string <$> roles)
                          +:+ ". Your role: " +:+ role_string (role u)) 403), db)
      else (Next req, db)
  end.

(** [idParamValidation]: [param('id').isMongoId().withMessage(...)] *)
Definition idParamValidation (req : Request) (db : Database) : Step * Database :=
  if isMongoId (params_id req) then (Next req, db)
  else (Next (add_validationError req ("id", "Invalid news ID format")), db).

(** [handleValidationErrors]; the [errors] array of the body is left out of
    the modelled response. *)
Definition handleValidationErrors (req : Request) (db : Database) : Step * Database :=
  match validationErrors req with
  | [] => (Next req, db)
  | _ :: _ =>
      (Send (mkResponse 400 [("success", JBool false);
                             ("message", JString "Validation failed")]), db)
  end.

(** [newsController.deleteNews] *)
Definition deleteNews (req : Request) (db : Database) : Step * Database :=
  match news db !! params_id req with
  | None => (NextError (new_AppError "News not found" 404), db)
  | Some _ =>
      (Send (mkResponse 200 [("success", JBool true);
                             ("message", JString "News deleted successfully")]),
       mkDb (users db) (delete (params_id req) (news db)))
  end.

Record Middleware : Type := mkMiddleware {
  mw_name : string;
  mw_run : Request -> Database -> Step * Database
}.

(** What happened to a request: the handlers that ran, in order, the response
    and the database afterwards. *)
Record Outcome : Type := mkOutcome {
  ran : list string;
  response : Response;
  database : Database
}.

(** Express runs the handlers of a route in order; [next(err)] skips to the
    application's error handler, and a request no handler answers falls
    through to [notFoundHandler]. *)
Fixpoint run_route (handlers : list Middleware) (originalUrl : string)
    (req : Request) (db : Database) : Outcome :=
  match handlers with
  | [] => mkOutcome [] (notFoundHandler originalUrl) db
  | m :: rest =>
      match mw_run m req db with
      | (Next req', db') =>
          let o := run_route rest originalUrl req' db' in
          mkOutcome (mw_name m :: ran o) (response o) (database o)
      | (NextError err, db') => mkOutcome [mw_name m] (errorHandler NODE_ENV err) db'
      | (Send res, db') => mkOutcome [mw_name m] res db'
      end
  end.

(** [router.delete('/:id', authenticate, authorize(USER_ROLES.ADMIN),
    idParamValidation, handleValidationErrors, newsController.deleteNews)] *)
Definition delete_route : list Middleware :=
  [ mkMiddleware "authenticate" authenticate;
    mkMiddleware "authorize" (authorize [admin]);
    mkMiddleware "idParamValidation" idParamValidation;
    mkMiddleware "handleValidationErrors" handleValidationErrors;
    mkMiddleware "deleteNews" deleteNews ].

End Middleware.

End News.

(** * Problem 6: the score-board service

    The exercise is a design: README.md (with the security summary it
    embeds), FLOW_DIAGRAM.md and the gateway guide.  The definitions follow
    their JavaScript snippets, numbered validation steps, SQL tables and
    diagrams. *)

Module ScoreBoard.

Local Open Scope string_scope.
Local Open Scope Z_scope.

(** The [Reject] outcomes of the security flow, the string thrown by the
    sliding-window snippet, and the failure of the ledger's transaction. *)
Inductive Rejection : Type :=
| TOO_MANY_REQUESTS
| USER_RATE_LIMIT
| ACTION_LIMIT
| RATE_LIMIT_EXCEEDED
| INVALID_TOKEN
| FORBIDDEN
| STALE_REQUEST
| REPLAY_ATTACK
| INVALID_SIGNATURE
| TASK_NOT_FOUND
| UNAUTHORIZED
| ALREADY_COMPLETED
| COOLDOWN
| DATABASE_ERROR.

#[global] Instance Rejection_eq_dec : EqDecision Rejection.
Proof. solve_decision. Defined.

(** ** Rate limiting: the sliding window over a Redis sorted set
    (README.md, "Rate Limiting Algorithms", 1. Sliding Window) *)

(** One sorted set: the scores of its members, oldest first (every member
    is [`${now}-${uuid()}`], so each [zadd] adds a new one), and the time at
    which the key expires, if an expiry was set. *)
Record SortedSet : Type := mkSortedSet {
  scores : list Z;
  expires_at : option Z
}.

Abbreviation Redis := (gmap string SortedSet).

Definition expired (z : SortedSet) (now : Z) : bool :=
  match expires_at z with
  | Some e => e <=? now
  | None => false
  end.

(** The sorted set stored at [key], unless the key has expired. *)
Definition live (r : Redis) (key : string) (now : Z) : option SortedSet :=
  match r !! key with
  | Some z => if expired z now then None else Some z
  | None => None
  end.

Definition in_range (lo hi s : Z) : bool := (lo <=? s) && (s <=? hi).

(** [ZREMRANGEBYSCORE key lo hi]; Redis drops a sorted set left empty. *)
Definition zremrangebyscore (key : string) (lo hi : Z) (now : Z) (r : Redis) : Redis :=
  match live r key now with
  | None => delete key r
  | Some z =>
      match List.filter (fun s => negb (in_range lo hi s)) (scores z) with
      | [] => delete key r
      | kept => <[key := mkSortedSet kept (expires_at z)]> r
      end
  end.

(** [ZCARD key] *)
Definition zcard (key : string) (now : Z) (r : Redis) : Z :=
  match live r key now with
  | Some z => Z.of_nat (length (scores z))
  | None => 0
  end.

(** [ZADD key score member] with a member not yet in the set. *)
Definition zadd (key : string) (score : Z) (now : Z) (r : Redis) : Redis :=
  match live r key now with
  | Some z => <[key := mkSortedSet (scores z ++ [score]) (expires_at z)]> r
  | None => <[key := mkSortedSet [score] None]> r
  end.

(** [EXPIRE key seconds] *)
Definition expire (key : string) (seconds : Z) (now : Z) (r : Redis) : Redis :=
  match live r key now with
  | Some z => <[key := mkSortedSet (scores z) (Some (now + seconds * 1000))]> r
  | None => r
  end.

(** [Math.ceil(a / b)] for a positive [b]. *)
Definition ceil_div (a b : Z) : Z := - ((- a) / b).

Definition rate_limit_key (userId action : string) : string :=
  "rate_limit:" +:+ userId +:+ ":" +:+ action.

(** The sliding-window snippet, run at time [now = Date.now()] with the
    configured [limit] and [windowSize] (60000 in the snippet). *)
Definition checkRateLimit (limit windowSize : Z) (userId action : string)
    (now : Z) (r : Redis) : result Rejection unit * Redis :=
  let key := rate_limit_key userId action in
  let r1 := zremrangebyscore key 0 (now - windowSize) now r in
  let count := zcard key now r1 in
  if limit <=? count then (Throw RATE_LIMIT_EXCEEDED, r1)
  else
    let r2 := zadd key now now r1 in
    let r3 := expire key (ceil_div windowSize 1000) now r2 in
    (Ok tt, r3).

(** Requests of one identity arriving one after the other at the given
    times: the outcomes, and the store afterwards. *)
Fixpoint checkRateLimit_all (limit windowSize : Z) (userId action : string)
    (times : list Z) (r : Redis) : list (result Rejection unit) * Redis :=
  match times with
  | [] => ([], r)
  | now :: rest =>
      let (o, r1) := checkRateLimit limit windowSize userId action now r in
      let (os, r2) := checkRateLimit_all limit windowSize userId action rest r1 in
      (o :: os, r2)
  end.

(** ** Request signing: the five steps of "Server Validation"
    (README.md, "Request Signing"; FLOW_DIAGRAM.md 4, layer 3) *)

(** What the client sends: the body, and the three [X-] headers. *)
Record SignedRequest : Type := mkSigned {
  payload : string;
  nonce : string;
  timestamp : Z;
  signature : string
}.

(** The authenticated user and the secret shared for the session. *)
Record Principal : Type := mkPrincipal {
  userId : string;
  sharedSecret : string;
  permissions : list string
}.

(** The nonces Redis holds: each with the time its 5-minute TTL ends. *)
Abbreviation NonceStore := (gmap string Z).

Definition FRESHNESS_MS : Z := 60 * 1000.
Definition NONCE_TTL_MS : Z := 5 * 60 * 1000.

Definition nonce_exists (store : NonceStore) (n : string) (now : Z) : bool :=
  match store !! n with
  | Some e => now <? e
  | None => false
  end.

(** Where a request stands among the steps; each step is one round trip to
    Redis or one local computation. *)
Inductive VerifyStep : Type :=
| CheckTimestamp
| CheckNonce
| VerifySignature
| StoreNonce
| Verified
| Rejected (why : Rejection).

Section Signing.

(** [HMAC_SHA256(secret, message)] *)
Variable HMAC_SHA256 : string -> string -> string.

(** [`${payload}|${nonce}|${timestamp}|${userId}`] *)
Definition signing_message (req : SignedRequest) (p : Principal) : string :=
  payload req +:+ "|" +:+ nonce req +:+ "|" +:+ pretty (timestamp req) +:+ "|" +:+ userId p.

(** One step of the validation of [req] at time [now]. *)
Definition verify_step (req : SignedRequest) (p : Principal) (now : Z)
    (at_step : VerifyStep) (store : NonceStore) : VerifyStep * NonceStore :=
  match at_step with
  | CheckTimestamp =>
      if now - timestamp req <? FRESHNESS_MS then (CheckNonce, store)
      else (Rejected STALE_REQUEST, store)
  | CheckNonce =>
      if nonce_exists store (nonce req) now then (Rejected REPLAY_ATTACK, store)
      else (VerifySignature, store)
  | VerifySignature =>
      if String.eqb (HMAC_SHA256 (sharedSecret p) (signing_message req p)) (signature req)
      then (StoreNonce, store)
      else (Rejected INVALID_SIGNATURE, store)
  | StoreNonce => (Verified, <[nonce req := now + NONCE_TTL_MS]> store)
  | Verified => (Verified, store)
  | Rejected why => (Rejected why, store)
  end.

(** The whole validation of one request with nothing in between: steps 1 to 4. *)
Definition verify (req : SignedRequest) (p : Principal) (now : Z)
    (store : NonceStore) : VerifyStep * NonceStore :=
  let '(s1, st1) := verify_step req p now CheckTimestamp store in
  let '(s2, st2) := verify_step req p now s1 st1 in
  let '(s3, st3) := verify_step req p now s2 st2 in
  verify_step req p now s3 st3.





End Signing.

(** ** Zero-trust score calculation: [processAction]
    (README.md, "Zero-Trust Score Calculation", the correct practice) *)

(** A value found in the client's JSON. *)
Inductive jsval : Type :=
| JUndefined
| JNumber (q : Q)
| JText (s : string).

(** [metadata]: the object the client sent; a missing field reads [undefined]. *)
Abbreviation Metadata := (gmap string jsval).

Definition field (m : Metadata) (k : string) : jsval := default JUndefined (m !! k).

Record Task : Type := mkTask {
  task_userId : string;
  completed : bool
}.

(** A score while it is computed: a number, or [None] where JavaScript has
    [undefined] or [NaN] (an unknown action type or level). *)
Abbreviation Points := (option Q).

Definition multiply (a b : Points) : Points :=
  x ← a; y ← b; Some (x * y)%Q.

Section ZeroTrust.

(** The server's side of [processAction]: its state with the three calls
    that consult or change it, the two configuration tables, and
    JavaScript's conversion of a string to a number for [<]. *)
Variable ServerState : Type.
Variable getTask : ServerState -> jsval -> option Task.
Variable getUserLevel : ServerState -> string -> string.
Variable updateUserScore :
  string -> Points -> ServerState -> result Rejection unit * ServerState.
Variable SCORE_TABLE : string -> Points.
Variable LEVEL_MULTIPLIERS : string -> Points.
Variable ToNumber : string -> option Q.

(** [v < k] *)
Definition less_than (v : jsval) (k : Q) : bool :=
  match v with
  | JNumber q => negb (Qle_bool k q)
  | JText s => match ToNumber s with
               | Some q => negb (Qle_bool k q)
               | None => false
               end
  | JUndefined => false
  end.

(** [processAction(userId, actionType, metadata)] *)
Definition processAction (userId actionType : string) (metadata : Metadata)
    (st : ServerState) : result Rejection Points * ServerState :=
  (* 1. VALIDATE preconditions *)
  match getTask st (field metadata "taskId") with
  | None => (Throw TASK_NOT_FOUND, st)
  | Some task =>
      if negb (String.eqb (task_userId task) userId) then (Throw UNAUTHORIZED, st)
      else if completed task then (Throw ALREADY_COMPLETED, st)
      else
        (* 2. CALCULATE score *)
        let points := SCORE_TABLE actionType in
        let points :=
          if less_than (field metadata "completionTime") 60
          then multiply points (Some (3 # 2)) else points in
        let userLevel := getUserLevel st userId in
        let points := multiply points (LEVEL_MULTIPLIERS userLevel) in
        (* 3. AWARD points *)
        match updateUserScore userId points st with
        | (Ok _, st') => (Ok points, st')
        | (Throw e, st') => (Throw e, st')
        end
  end.

End ZeroTrust.

(** ** The ledger: the tables and the score-update transaction
    (README.md, "Database Schema"; FLOW_DIAGRAM.md 6, "Database Transaction
    Flow for Score Update") *)

(** The columns of [users], [score_history] and [actions] the transaction
    reads or writes. *)
Record UserRow : Type := mkUserRow {
  current_score : Z
}.

Record HistoryRow : Type := mkHistoryRow {
  user_id : string;
  action_type : string;
  score_change : Z;
  score_before : Z;
  score_after : Z;
  created_at : Z
}.

Record ActionRow : Type := mkActionRow {
  action_user_id : string;
  action_action_type : string;
  score_awarded : Z;
  processed_at : Z
}.

(** Rows of [score_history] and [actions] in the order they were inserted. *)
Record Tables : Type := mkTables {
  users : gmap string UserRow;
  score_history : list HistoryRow;
  actions : list ActionRow
}.

(** The database: what is committed (and visible to everyone), and the
    working copy of the transaction in progress, if there is one. *)
Record Database : Type := mkDatabase {
  committed : Tables;
  pending : option Tables
}.

Inductive DbOp : Type :=
| SelectForUpdate
| UpdateUsers
| InsertScoreHistory
| InsertActions
| CommitTransaction.

(** A statement inside a transaction: it fails, or yields a value; either
    way the database goes on from where the statement left it. *)
Definition Tx (A : Type) : Type := Database -> option A * Database.

#[global] Instance Tx_ret : MRet Tx := fun A a db => (Some a, db).

#[global] Instance Tx_bind : MBind Tx :=
  fun A B k m db =>
    match m db with
    | (Some a, db') => k a db'
    | (None, db') => (None, db')
    end.

Definition begin_transaction (db : Database) : Database :=
  mkDatabase (committed db) (Some (committed db)).

Definition rollback (db : Database) : Database :=
  mkDatabase (committed db) None.

Section Ledger.

(** Which statements fail in this run (lost connection, lock timeout,
    constraint violation), and the check "Validate Score Change". *)
Variable fails : DbOp -> bool.
Variable validScoreChange : Z -> Z -> bool.

(** A statement on the working copy. *)
Definition statement {A : Type} (op : DbOp) (f : Tables -> option (A * Tables)) : Tx A :=
  fun db =>
    if fails op then (None, db)
    else match pending db with
         | None => (None, db)
         | Some t =>
             match f t with
             | Some (a, t') => (Some a, mkDatabase (committed db) (Some t'))
             | None => (None, db)
             end
         end.

(** [SELECT user FOR UPDATE] *)
Definition select_user_for_update (userId : string) : Tx UserRow :=
  statement SelectForUpdate (fun t => u ← users t !! userId; Some (u, t)).

(** [UPDATE users SET current_score = ?] *)
Definition update_users (userId : string) (newScore : Z) : Tx unit :=
  statement UpdateUsers
    (fun t => Some (tt, mkTables (<[userId := mkUserRow newScore]> (users t))
                                 (score_history t) (actions t))).

(** [INSERT INTO score_history] *)
Definition insert_score_history (row : HistoryRow) : Tx unit :=
  statement InsertScoreHistory
    (fun t => Some (tt, mkTables (users t) (score_history t ++ [row]) (actions t))).

(** [INSERT INTO actions] *)
Definition insert_actions (row : ActionRow) : Tx unit :=
  statement InsertActions
    (fun t => Some (tt, mkTables (users t) (score_history t) (actions t ++ [row]))).

(** "Validate Score Change" *)
Definition validate_score_change (before after : Z) : Tx unit :=
  fun db => if validScoreChange before after then (Some tt, db) else (None, db).

(** [COMMIT TRANSACTION] *)
Definition commit_transaction : Tx unit :=
  fun db =>
    if fails CommitTransaction then (None, db)
    else match pending db with
         | Some t => (Some tt, mkDatabase t None)
         | None => (None, db)
         end.

(** The statements between [BEGIN] and [COMMIT]. *)
Definition score_update_statements (userId actionType : string) (delta now : Z)
    : Tx HistoryRow :=
  user ← select_user_for_update userId;
  let newScore := current_score user + delta in
  _ ← validate_score_change (current_score user) newScore;
  _ ← update_users userId newScore;
  let row := mkHistoryRow userId actionType delta (current_score user) newScore now in
  _ ← insert_score_history row;
  _ ← insert_actions (mkActionRow userId actionType delta now);
  mret row.

(** "Database Transaction Flow for Score Update": all statements, then
    [COMMIT] if every one succeeded and [ROLLBACK] otherwise. *)
Definition updateScore (userId actionType : string) (delta now : Z)
    (db : Database) : result Rejection HistoryRow * Database :=
  match (row ← score_update_statements userId actionType delta now;
         _ ← commit_transaction;
         mret row) (begin_transaction db) with
  | (Some row, db') => (Ok row, db')
  | (None, db') => (Throw DATABASE_ERROR, rollback db')
  end.

End Ledger.

(** "Retry Logic": the transaction is run again, up to [attempts] times in
    all; [fails n] says which statements fail in the run numbered [n]. *)
Fixpoint updateScore_retrying (attempts : nat) (fails : nat -> DbOp -> bool)
    (validScoreChange : Z -> Z -> bool) (userId actionType : string)
    (delta now : Z) (db : Database) : result Rejection HistoryRow * Database :=
  match attempts with
  | O => (Throw DATABASE_ERROR, db)
  | S n =>
      match updateScore (fails attempts) validScoreChange userId actionType delta now db with
      | (Ok row, db') => (Ok row, db')
      | (Throw _, db') =>
          updateScore_retrying n fails validScoreChange userId actionType delta now db'
      end
  end.

End ScoreBoard.

(** * Problem 6: the gateway guide's signature verification *)

Module GatewayGuide.
Import ScoreBoard.

Local Open Scope string_scope.
Local Open Scope Z_scope.

(** The guide's error codes for layer 3. *)
Inductive SigningError : Type :=
| MISSING_SIGNATURE_HEADERS
| STALE
| FUTURE_REQUEST
| REPLAY
| INVALID
| NO_SIGNING_SECRET.

(** The request with its three headers, each of which may be missing. *)
Record Headers : Type := mkHeaders {
  body : string;
  X_Signature : option string;
  X_Nonce : option string;
  X_Timestamp : option Z
}.

Definition CLOCK_SKEW_MS : Z := 5 * 1000.

Section Verification.

Variable HMAC_SHA256 : string -> string -> string.

(** The 7-step validation.  [secrets] is Redis at [signing_secret:{userId}],
    [store] is Redis at [nonce:{nonce}]. *)
Definition verify_headers (secrets : gmap string string) (req : Headers) (userId : string)
    (now : Z) (store : NonceStore) : result SigningError unit * NonceStore :=
  (* 1. extract headers *)
  match X_Signature req, X_Nonce req, X_Timestamp req with
  | Some signature, Some nonce, Some timestamp =>
      (* 2. timestamp check *)
      if 60 * 1000 <? now - timestamp then (Throw STALE, store)
      else if now + CLOCK_SKEW_MS <? timestamp then (Throw FUTURE_REQUEST, store)
      (* 3. nonce uniqueness *)
      else if nonce_exists store nonce now then (Throw REPLAY, store)
      else
        (* 4. get shared secret *)
        match secrets !! userId with
        | None => (Throw NO_SIGNING_SECRET, store)
        | Some secret =>
            (* 5. calculate, 6. compare *)
            let message :=
              body req +:+ "|" +:+ nonce +:+ "|" +:+ pretty timestamp +:+ "|" +:+ userId in
            if String.eqb (HMAC_SHA256 secret message) signature
            (* 7. store nonce *)
            then (Ok tt, <[nonce := now + NONCE_TTL_MS]> store)
            else (Throw INVALID, store)
        end
  | _, _, _ => (Throw MISSING_SIGNATURE_HEADERS, store)
  end.

End Verification.

End GatewayGuide.

(** * Problem 5: optional authentication, login and the article list *)

Module NewsAccess.
Import News.

Local Open Scope string_scope.
Local Open Scope Z_scope.

(** ** middleware/auth.ts *)

Section OptionalAuth.

Variable jwt_verify : string -> JwtVerify.

(** [optionalAuth(req, _res, next)] *)
Definition optionalAuth (req : Request) (db : Database) : Step * Database :=
  match authorization req with
  | Some authHeader =>
      if String.prefix "Bearer " authHeader then
        match split " "%char authHeader !! 1%nat ≫= verifyToken jwt_verify with
        | Some decoded =>
            match users db !! id decoded with
            | Some u =>
                if isActive u then (Next (set_user req decoded), db)
                else (Next req, db)
            | None => (Next req, db)
            end
        | None => (Next req, db)
        end
      else (Next req, db)
  | None => (Next req, db)
  end.

End OptionalAuth.

Section DriverLookup.

(** [authenticate] with [User.findById] as the driver call it is: the
    promise resolves to a document or [null], or it rejects (a lost
    connection, a [CastError]), and what it rejects with is caught and handed
    to [next] like the function's own errors. *)
Variable findById : Database -> string -> result Error (option UserDoc).
Variable jwt_verify : string -> JwtVerify.
Variable captured_stack : string.

Definition authenticate_findById (req : Request) (db : Database) : Step * Database :=
  match authorization req with
  | None =>
      (NextError (new_AppError captured_stack
                    "Authentication required. Please provide a valid token." 401), db)
  | Some authHeader =>
      if negb (String.prefix "Bearer " authHeader) then
        (NextError (new_AppError captured_stack
                      "Authentication required. Please provide a valid token." 401), db)
      else
        match split " "%char authHeader !! 1%nat ≫= verifyToken jwt_verify with
        | None => (NextError (new_AppError captured_stack "Invalid or expired token." 401), db)
        | Some decoded =>
            match findById db (id decoded) with
            | Throw error => (NextError error, db)
            | Ok (Some u) =>
                if isActive u then (Next (set_user req decoded), db)
                else (NextError (new_AppError captured_stack
                                   "User no longer exists or is inactive." 401), db)
            | Ok None =>
                (NextError (new_AppError captured_stack
                              "User no longer exists or is inactive." 401), db)
            end
        end
  end.

End DriverLookup.

(** ** controllers/authController.ts *)

(** What [login] reads of a user document. *)
Record Account : Type := mkAccount {
  account_id : string;
  account_email : string;
  account_role : UserRole;
  account_isActive : bool
}.

(** The answer to a successful login: its status, the user and the token. *)
Record LoginResponse : Type := mkLoginResponse {
  login_status : Z;
  login_user : Account;
  login_token : string
}.

Section AuthController.

(** [User.findOne({ email })], the model's [comparePassword], and
    [jwt.sign] with the server's secret and expiry. *)
Variable findOne : string -> option Account.
Variable comparePassword : Account -> string -> bool.
Variable jwt_sign : TokenPayload -> string.
Variable captured_stack : string.

(** [generateToken(userId, email, role)] *)
Definition generateToken (userId email : string) (role : UserRole) : string :=
  jwt_sign (mkPayload userId email role).

(** [login(req, res, next)]: a thrown error is handed to [next]. *)
Definition login (email password : string) : result Error LoginResponse :=
  match findOne email with
  | None => Throw (new_AppError captured_stack "Invalid email or password" 401)
  | Some user =>
      if negb (account_isActive user) then
        Throw (new_AppError captured_stack
                 "Account is deactivated. Please contact support." 403)
      else if negb (comparePassword user password) then
        Throw (new_AppError captured_stack "Invalid email or password" 401)
      else
        Ok (mkLoginResponse 200 user
              (generateToken (account_id user) (account_email user) (account_role user)))
  end.

End AuthController.

(** ** controllers/newsController.ts: the list *)

(** [parseInt(req.query.x) || d]: NaN ([None]) and 0 give the default. *)
Definition or_default (parsed : option Z) (d : Z) : Z :=
  match parsed with
  | None => d
  | Some n => if n =? 0 then d else n
  end.

(** [Math.ceil(a / b)] *)
Definition Math_ceil_div (a b : Z) : Z := Qceiling (inject_Z a / inject_Z b).

Record Pagination : Type := mkPagination {
  currentPage : Z;
  totalPages : Z;
  totalItems : Z;
  itemsPerPage : Z;
  hasNextPage : bool;
  hasPrevPage : bool
}.

(** [listNews], given the documents [News.find(filters).sort(sort)] matches,
    in order: [.skip(skip).limit(limit)] cut their slice out of them and
    [countDocuments(filters)] is their number.  What the driver does with a
    page or a limit below 1, which [listNewsValidation] refuses, is not
    modelled. *)
Definition listNews {A : Type} (query_page query_limit : option Z) (matching : list A)
    : list A * Pagination :=
  let page := or_default query_page 1 in
  let limit := or_default query_limit 10 in
  let skip := (page - 1) * limit in
  let news := take (Z.to_nat limit) (drop (Z.to_nat skip) matching) in
  let totalItems := Z.of_nat (length matching) in
  let totalPages := Math_ceil_div totalItems limit in
  (news,
   mkPagination page totalPages totalItems limit (page <? totalPages) (1 <? page)).

End NewsAccess.

(** * Problem 6: the cache service (README.md, "Caching Strategy") *)

Module CacheService.

Local Open Scope string_scope.
Local Open Scope Z_scope.

(** Redis as a cache: a string per key, with the time at which it expires. *)
Abbreviation Cache := (gmap string (string * Z)).

(** [redis.get(key)] *)
Definition redis_get (key : string) (now : Z) (c : Cache) : option string :=
  match c !! key with
  | Some (value, expires) => if now <? expires then Some value else None
  | None => None
  end.

(** [redis.setex(key, seconds, value)] *)
Definition redis_setex (key : string) (seconds : Z) (value : string) (now : Z) (c : Cache)
    : Cache :=
  <[key := (value, now + seconds * 1000)]> c.

(** [redis.del(key)] *)
Definition redis_del (key : string) (c : Cache) : Cache := delete key c.

(** [cacheConfig] *)
Definition scoreboard_key : string := "scoreboard:top10".
Definition scoreboard_ttl : Z := 30.
Definition userScore_key : string := "user:score:".
Definition userScore_ttl : Z := 300.

(** [if (cached)]: a string is truthy unless it is empty. *)
Definition truthy (cached : option string) : option string :=
  match cached with
  | Some "" => None
  | other => other
  end.

Section Service.

(** The database behind the cache, and [JSON.stringify] and [JSON.parse]
    on what it returns. *)
Variable Database : Type.
Variable Data : Type.
Variable getTopScores : Database -> Z -> Data.
Variable getUserScore_db : Database -> string -> Data.
Variable JSON_stringify : Data -> string.
Variable JSON_parse : string -> Data.

(** [getScoreboard()] *)
Definition getScoreboard (db : Database) (now : Z) (c : Cache) : Data * Cache :=
  match truthy (redis_get scoreboard_key now c) with
  | Some cached => (JSON_parse cached, c)
  | None =>
      let data := getTopScores db 10 in
      (data, redis_setex scoreboard_key scoreboard_ttl (JSON_stringify data) now c)
  end.

(** [invalidateScoreboard()] *)
Definition invalidateScoreboard (c : Cache) : Cache := redis_del scoreboard_key c.

(** [getUserScore(userId)] *)
Definition getUserScore (userId : string) (db : Database) (now : Z) (c : Cache)
    : Data * Cache :=
  let key := userScore_key +:+ userId in
  match truthy (redis_get key now c) with
  | Some cached => (JSON_parse cached, c)
  | None =>
      let data := getUserScore_db db userId in
      (data, redis_setex key userScore_ttl (JSON_stringify data) now c)
  end.

End Service.

End CacheService.

(** * Properties of problem 4 *)

Module SumToNProofs.
Import SumToN.

Lemma for_loop_unfold (n i sum : Z) :
  for_loop n i sum = if i <=? n then for_loop n (i + 1) (sum + i) else sum.
Proof.
  rewrite for_loop_equation_1. unfold for_loop_unfold_clause_1.
  destruct (i <=? n); reflexivity.
Qed.

Lemma sum_to_n_c_unfold (n : number) :
  sum_to_n_c n =
  match validateInput n (Some MAX_SAFE_RECURSIVE_INPUT) (Some "recursive"%string) with
  | Throw e => Throw e
  | Ok _ =>
      if eq_int n 0 || eq_int n 1 then Ok (int_of n)
      else r ← sum_to_n_c (minus_one n); Ok (int_of n + r)
  end.
Proof.
  funelim (sum_to_n_c n); clear Heqcall;
    repeat match goal with
           | H : validateInput _ _ _ = _ |- _ => rewrite H
           | H : (_ || _)%bool = _ |- _ => rewrite H
           end; reflexivity.
Qed.

(** The loop invariant: entered at [i] with [sum], the loop adds [i + ... + n]. *)
Lemma for_loop_closed_form (k : nat) :
  forall n i sum, n + 1 - i = Z.of_nat k ->
    2 * for_loop n i sum = 2 * sum + n * (n + 1) - (i - 1) * i.
Proof.
  induction k as [|k IH]; intros n i sum Hk; rewrite for_loop_unfold.
  - destruct (Z.leb_spec i n); [lia|]. replace i with (n + 1) by lia. lia.
  - destruct (Z.leb_spec i n); [|lia]. rewrite IH by lia. lia.
Qed.

Lemma gauss_even (z : Z) : 2 * ((z * (z + 1)) / 2) = z * (z + 1).
Proof.
  assert (Hmod : (z * (z + 1)) mod 2 = 0).
  { rewrite Z.mul_mod by lia.
    destruct (Z.mod_pos_bound z 2 ltac:(lia)) as [? ?].
    assert (Hz : z mod 2 = 0 \/ z mod 2 = 1) by lia.
    rewrite Z.add_mod by lia.
    destruct Hz as [-> | ->]; reflexivity. }
  pose proof (Z.div_mod (z * (z + 1)) 2 ltac:(lia)). lia.
Qed.

(** A number that passes for an integer in [0, m]. *)
Lemma validateInput_integer (n : number) (maxValue : option Z) (context : option string) :
  Number_isInteger n = true -> 0 <= int_of n ->
  match maxValue with Some m => int_of n <= m | None => True end ->
  validateInput n maxValue context = Ok tt.
Proof.
  intros Hint H0 Hmax. destruct n as [q| |neg]; try discriminate.
  simpl in *. apply Qeq_bool_iff in Hint.
  unfold validateInput. cbn [Number_isInteger lt_int gt_int].
  assert (Hi : Qeq_bool q (inject_Z (Qfloor q)) = true) by (apply Qeq_bool_iff; exact Hint).
  assert (H0' : Qle_bool (inject_Z 0) q = true).
  { apply Qle_bool_iff. rewrite Hint. rewrite <- Zle_Qle. exact H0. }
  rewrite Hi, H0'. cbn [negb orb].
  destruct maxValue as [m|]; [|reflexivity].
  assert (Hm : Qle_bool q (inject_Z m) = true).
  { apply Qle_bool_iff. rewrite Hint. rewrite <- Zle_Qle. exact Hmax. }
  rewrite Hm. reflexivity.
Qed.

Lemma eq_int_spec (n : number) (k : Z) :
  Number_isInteger n = true -> eq_int n k = (int_of n =? k).
Proof.
  destruct n as [q| |neg]; try discriminate. simpl. intros Hint.
  apply Qeq_bool_iff in Hint.
  destruct (Z.eqb_spec (Qfloor q) k) as [<- | Hne].
  - apply Qeq_bool_iff. exact Hint.
  - destruct (Qeq_bool q (inject_Z k)) eqn:Hk; [|reflexivity].
    apply Qeq_bool_iff in Hk. rewrite Hk in Hne. rewrite Qfloor_Z in Hne. lia.
Qed.

Lemma minus_one_integer (n : number) :
  Number_isInteger n = true ->
  Number_isInteger (minus_one n) = true /\ int_of (minus_one n) = int_of n - 1.
Proof.
  destruct n as [q| |neg]; try discriminate.
  cbn [Number_isInteger minus_one int_of]. intros Hint.
  apply Qeq_bool_iff in Hint.
  rewrite (Qfloor_minus_one q Hint). split; [|reflexivity].
  apply Qeq_bool_iff. rewrite Hint at 1.
  unfold Z.sub. rewrite inject_Z_plus, inject_Z_opp. reflexivity.
Qed.

Lemma sum_to_n_c_closed_form (k : nat) :
  forall n, Number_isInteger n = true -> int_of n = Z.of_nat k ->
    int_of n <= MAX_SAFE_RECURSIVE_INPUT ->
    sum_to_n_c n = Ok ((int_of n * (int_of n + 1)) / 2).
Proof.
  induction k as [|k IH]; intros n Hint Hk Hmax; rewrite sum_to_n_c_unfold;
    rewrite (validateInput_integer n _ _ Hint) by (try exact Hmax; lia);
    rewrite !(eq_int_spec n _ Hint).
  - rewrite Hk. reflexivity.
  - destruct (minus_one_integer n Hint) as [Hint' Hval'].
    destruct (Z.eqb_spec (int_of n) 0) as [E0|_]; [lia|].
    destruct (Z.eqb_spec (int_of n) 1) as [E1|N1]; cbn [orb].
    + rewrite E1. reflexivity.
    + rewrite (IH (minus_one n) Hint') by lia. cbn.
      f_equal. rewrite Hval'.
      pose proof (gauss_even (int_of n)). pose proof (gauss_even (int_of n - 1)).
      replace (int_of n - 1 + 1) with (int_of n) in * by lia. lia.
Qed.

(** On inputs up to [MAX_SAFE_RECURSIVE_INPUT] every value the three
    functions compute stays far below [2^53], where doubles are exact. *)
Lemma sums_in_safe_range (z : Z) :
  0 <= z <= MAX_SAFE_RECURSIVE_INPUT ->
  0 <= (z * (z + 1)) / 2 <= z * (z + 1) /\ z * (z + 1) < 2 ^ 53.
Proof.
  unfold MAX_SAFE_RECURSIVE_INPUT. intros Hz.
  pose proof (gauss_even z). split; [nia|].
  assert (z * (z + 1) <= 10000 * 10001) by nia. lia.
Qed.

(** What the recursion does with the room it is given: it returns the sum
    when the stack holds the [n] nested calls (one call for [n = 0]), and
    runs out of stack otherwise. *)
Lemma sum_to_n_c_on_stack (stack : nat) :
  forall n, Number_isInteger n = true ->
    0 <= int_of n <= MAX_SAFE_RECURSIVE_INPUT ->
    sum_to_n_c_on stack n
    = if Z.max 1 (int_of n) <=? Z.of_nat stack
      then Ok ((int_of n * (int_of n + 1)) / 2)
      else Throw RangeError.
Proof.
  induction stack as [|room IH]; intros n Hint [H0 Hmax].
  - cbn [sum_to_n_c_on]. destruct (Z.leb_spec (Z.max 1 (int_of n)) (Z.of_nat 0)); [lia|].
    reflexivity.
  - cbn [sum_to_n_c_on].
    rewrite (validateInput_integer n (Some MAX_SAFE_RECURSIVE_INPUT) _ Hint H0 Hmax).
    cbn [mbind result_bind].
    rewrite !(eq_int_spec n _ Hint).
    destruct (Z.eqb_spec (int_of n) 0) as [E0|N0]; cbn [orb].
    { rewrite E0. destruct (Z.leb_spec (Z.max 1 0) (Z.of_nat (S room))); [reflexivity | lia]. }
    destruct (Z.eqb_spec (int_of n) 1) as [E1|N1].
    { rewrite E1. destruct (Z.leb_spec (Z.max 1 1) (Z.of_nat (S room))); [reflexivity | lia]. }
    destruct (minus_one_integer n Hint) as [Hint' Hval'].
    rewrite (IH (minus_one n) Hint') by lia. rewrite Hval'.
    destruct (Z.leb_spec (Z.max 1 (int_of n - 1)) (Z.of_nat room));
      destruct (Z.leb_spec (Z.max 1 (int_of n)) (Z.of_nat (S room))); try lia.
    + cbn. f_equal.
      pose proof (gauss_even (int_of n)). pose proof (gauss_even (int_of n - 1)).
      replace (int_of n - 1 + 1) with (int_of n) in * by lia. lia.
    + reflexivity.
Qed.

(** With room for the whole recursion the stack is not seen. *)
Lemma sum_to_n_c_on_enough (stack : nat) (n : number) :
  Number_isInteger n = true ->
  0 <= int_of n <= MAX_SAFE_RECURSIVE_INPUT ->
  Z.max 1 (int_of n) <= Z.of_nat stack ->
  sum_to_n_c_on stack n = sum_to_n_c n.
Proof.
  intros Hint Hrange Hroom.
  rewrite (sum_to_n_c_on_stack stack n Hint Hrange).
  rewrite (sum_to_n_c_closed_form (Z.to_nat (int_of n)) n Hint) by lia.
  destruct (Z.leb_spec (Z.max 1 (int_of n)) (Z.of_nat stack)); [reflexivity | lia].
Qed.

(** C9, on a stack of any size.  For every integer [n] with
    [0 <= n <= 10000] the loop and the formula return [n * (n + 1) / 2]; the
    recursion returns the same when the stack has room for its [n] nested
    calls, and throws [RangeError] when it has not, although [n] is within
    [MAX_SAFE_RECURSIVE_INPUT].  On an input that is not an integer, or is
    negative, each of the three throws. *)
Theorem sum_to_n_on_stack (stack : nat) :
  (forall n : number,
      Number_isInteger n = true ->
      0 <= int_of n <= MAX_SAFE_RECURSIVE_INPUT ->
      sum_to_n_a n = Ok ((int_of n * (int_of n + 1)) / 2) /\
      sum_to_n_b n = Ok ((int_of n * (int_of n + 1)) / 2) /\
      sum_to_n_c_on stack n
      = if Z.max 1 (int_of n) <=? Z.of_nat stack
        then Ok ((int_of n * (int_of n + 1)) / 2)
        else Throw RangeError) /\
  (forall n : number,
      Number_isInteger n = false \/ lt_int n 0 = true ->
      throws (sum_to_n_a n) = true /\
      throws (sum_to_n_b n) = true /\
      throws (sum_to_n_c_on stack n) = true).
Proof.
  split.
  - intros n Hint [H0 Hmax]. repeat split.
    + unfold sum_to_n_a.
      rewrite (validateInput_integer n None None Hint H0 I). cbn.
      rewrite (eq_int_spec n 0 Hint).
      destruct (Z.eqb_spec (int_of n) 0) as [-> | Hne]; [reflexivity|].
      f_equal.
      pose proof (for_loop_closed_form (Z.to_nat (int_of n)) (int_of n) 1 0 ltac:(lia)).
      pose proof (gauss_even (int_of n)). lia.
    + unfold sum_to_n_b.
      rewrite (validateInput_integer n (Some MAX_SAFE_FORMULA_INPUT) _ Hint H0)
        by (unfold MAX_SAFE_FORMULA_INPUT, MAX_SAFE_RECURSIVE_INPUT in *; lia).
      cbn. rewrite (eq_int_spec n 0 Hint).
      destruct (Z.eqb_spec (int_of n) 0) as [-> | Hne]; reflexivity.
    + apply sum_to_n_c_on_stack; [exact Hint | split; assumption].
  - intros n Hbad.
    assert (Hguard : negb (Number_isInteger n) || lt_int n 0 = true).
    { destruct Hbad as [-> | ->]; [reflexivity | apply orb_true_r]. }
    assert (Hv : forall m c, validateInput n m c = Throw NotNonNegativeInteger).
    { intros m c. unfold validateInput. rewrite Hguard. reflexivity. }
    repeat split.
    + unfold sum_to_n_a. rewrite Hv. reflexivity.
    + unfold sum_to_n_b. rewrite Hv. reflexivity.
    + destruct stack as [|room]; [reflexivity|].
      cbn [sum_to_n_c_on]. rewrite Hv. reflexivity.
Qed.

(** The stack the source measures for V8, about 8,874 calls, against
    [n = 10000]: the loop and the formula return 50005000 and the recursion
    overflows; with room for 10000 calls it returns 50005000 as well; and the
    non-integer [5/2] is refused by all three. *)
Lemma sum_to_n_on_stack_witness :
  (sum_to_n_a (of_int 10000) = Ok 50005000 /\
   sum_to_n_b (of_int 10000) = Ok 50005000 /\
   sum_to_n_c_on (Z.to_nat 8874) (of_int 10000) = Throw RangeError) /\
  sum_to_n_c_on (Z.to_nat 10000) (of_int 10000) = Ok 50005000 /\
  (throws (sum_to_n_a (Finite (5 # 2))) = true /\
   throws (sum_to_n_b (Finite (5 # 2))) = true /\
   throws (sum_to_n_c_on (Z.to_nat 8874) (Finite (5 # 2))) = true).
Proof.
  destruct (sum_to_n_on_stack (Z.to_nat 8874)) as [Hsmall Hbad].
  destruct (sum_to_n_on_stack (Z.to_nat 10000)) as [Hlarge _].
  split; [|split].
  - apply (Hsmall (of_int 10000)); [reflexivity | vm_compute; split; discriminate].
  - apply (Hlarge (of_int 10000)); [reflexivity | vm_compute; split; discriminate].
  - apply (Hbad (Finite (5 # 2))). left. reflexivity.
Defined.

End SumToNProofs.

(** * Properties of problem 5 *)

Module NewsProofs.
Import News.

Local Open Scope string_scope.

(** A stand-in for the [jsonwebtoken] library, enough to run the middleware
    on concrete requests: three tokens it accepts, one that has expired, and
    everything else malformed. *)
Definition sample_jwt (token : string) : JwtVerify :=
  if String.eqb token "admin.jwt" then Decoded (mkPayload "u1" "root@example.com" admin)
  else if String.eqb token "editor.jwt" then Decoded (mkPayload "u2" "ed@example.com" editor)
  else if String.eqb token "viewer.jwt" then Decoded (mkPayload "u3" "vi@example.com" viewer)
  else if String.eqb token "expired.jwt" then TokenExpiredError
  else JsonWebTokenError.

Definition sample_isMongoId (s : string) : bool := Nat.eqb (String.length s) 24.

Definition sample_db : Database :=
  mkDb (<["u1" := mkUser true]> (<["u2" := mkUser true]> (<["u3" := mkUser true]> ∅)))
       (<["507f1f77bcf86cd799439011" := mkNews "Breaking news"]> ∅).

Definition bearer (token : string) : Request :=
  mkRequest (Some ("Bearer " +:+ token)) "507f1f77bcf86cd799439011" None [].

Definition body_keys (r : Response) : list string := fst <$> body r.

#[global] Instance json_eq_dec : EqDecision json.
Proof. solve_decision. Defined.

(** The response shows the text [detail] in one of its fields. *)
Definition shows (r : Response) (detail : string) : bool :=
  bool_decide (JString detail ∈ (snd <$> body r)).

Definition with_stack (e : Error) (s : string) : Error :=
  match e with
  | AppError m c _ => AppError m c s
  | OtherError n m _ c => OtherError n m s c
  end.

(** [rateLimit({ message: ... })] of app.ts: the body sent when the limit is hit. *)
Definition limiter_message : list (string * json) :=
  [("success", JBool false);
   ("message", JString "Too many requests from this IP, please try again later.")].

Section WithLibraries.

Variable jwt_verify : string -> JwtVerify.
Variable captured_stack : string.
Variable isMongoId : string -> bool.
Variable NODE_ENV : option string.

Lemma authenticate_database (req : Request) (db : Database) :
  snd (authenticate jwt_verify captured_stack req db) = db.
Proof.
  unfold authenticate.
  repeat match goal with
         | |- context [match ?x with _ => _ end] => destruct x
         end; reflexivity.
Qed.

(** What [authenticate] has established when it calls [next()]. *)
Lemma authenticate_Next_inv (req req' : Request) (db db' : Database) :
  authenticate jwt_verify captured_stack req db = (Next req', db') ->
  exists h t p,
    authorization req = Some h /\ split " "%char h !! 1%nat = Some t /\
    jwt_verify t = Decoded p /\ req' = set_user req p /\ db' = db.
Proof.
  unfold authenticate. intros H.
  destruct (authorization req) as [h|]; [|discriminate].
  destruct (negb (String.prefix "Bearer " h)); [discriminate|].
  destruct (split " "%char h !! 1%nat) as [t|] eqn:Ht; [|discriminate].
  cbn in H. unfold verifyToken in H.
  destruct (jwt_verify t) as [p| | |] eqn:Hjwt; try discriminate.
  destruct (users db !! id p) as [u|]; [|discriminate].
  destruct (isActive u); [|discriminate].
  injection H as <- <-. exists h, t, p. auto.
Qed.

(** C6 as amended from the code.  For a request whose header is
    ["Bearer <t>"]: a token the library decodes yields the principal (when its
    user exists and is active); a token the library rejects, whether
    malformed, expired or not yet valid, yields the one 401 error
    "Invalid or expired token."; and [authorize(...roles)] passes exactly when
    the principal's role is among the route's [roles], answering 403
    otherwise, whatever else the request holds. *)
Theorem authgate_contract (req : Request) (db : Database) (h t : string) :
  authorization req = Some h ->
  String.prefix "Bearer " h = true ->
  split " "%char h !! 1%nat = Some t ->
  (forall p u, jwt_verify t = Decoded p ->
     users db !! id p = Some u -> isActive u = true ->
     authenticate jwt_verify captured_stack req db = (Next (set_user req p), db)) /\
  (jwt_verify t = JsonWebTokenError \/ jwt_verify t = TokenExpiredError \/
   jwt_verify t = NotBeforeError ->
     authenticate jwt_verify captured_stack req db
     = (NextError (AppError "Invalid or expired token." 401 captured_stack), db)) /\
  (forall roles p db', 
     let req' := set_user req p in
     authorize captured_stack roles req' db'
     = (if bool_decide (role p ∈ roles) then Next req'
        else NextError (AppError ("Access denied. Required role(s): "
                                  +:+ join ", " (role_string <$> roles)
                                  +:+ ". Your role: " +:+ role_string (role p))
                                 403 captured_stack),
        db')).
Proof.
  intros Hh Hpre Ht. split; [|split].
  - intros p u Hp Hu Hact. unfold authenticate.
    rewrite Hh, Hpre, Ht. cbn. unfold verifyToken. rewrite Hp, Hu, Hact. reflexivity.
  - intros Hbad. unfold authenticate.
    rewrite Hh, Hpre, Ht. cbn. unfold verifyToken.
    destruct Hbad as [-> | [-> | ->]]; reflexivity.
  - intros roles p db'. cbn. unfold authorize, includes. cbn.
    destruct (bool_decide (role p ∈ roles)); reflexivity.
Qed.

(** C8 as amended from the code.  Every answer of the handler is a status
    with a body that begins [success: false, message]; at most one field
    follows, [errors] or [error], so there is no error-code field and no
    [retryAfter] field.  An [AppError] is answered with its own status and
    message; any other error with 400, 409 or 500.  The handler never reads
    the stack.  An error it does not recognise gets the fixed 500 "Internal
    server error", and its message is added, as [error], exactly when
    [NODE_ENV] is ["development"]; outside development the message of an
    error other than a validation error changes nothing in the answer, while
    a validation error's message is sent, as [errors], in every environment. *)
Theorem errorHandler_exposure (err : Error) :
  (forall s, errorHandler NODE_ENV (with_stack err s) = errorHandler NODE_ENV err) /\
  Forall (fun k => k ∈ ["success"; "message"; "errors"; "error"])
         (body_keys (errorHandler NODE_ENV err)) /\
  (forall name message stack code message',
     err = OtherError name message stack code ->
     name <> "ValidationError" ->
     NODE_ENV <> Some "development" ->
     errorHandler NODE_ENV err = errorHandler NODE_ENV (OtherError name message' stack code)) /\
  (exists message extra,
     body (errorHandler NODE_ENV err)
     = ("success", JBool false) :: ("message", JString message) :: extra /\
     (extra = [] \/
      extra = [("errors", JString (err_message err))] \/
      extra = [("error", JString (err_message err))])) /\
  (forall message statusCode stack,
     err = AppError message statusCode stack ->
     errorHandler NODE_ENV err
     = mkResponse statusCode [("success", JBool false); ("message", JString message)]) /\
  (forall name message stack code,
     err = OtherError name message stack code ->
     status (errorHandler NODE_ENV err) ∈ [400; 409; 500]) /\
  (forall name message stack code,
     err = OtherError name message stack code ->
     name <> "ValidationError" ->
     name <> "CastError" ->
     ~ (name = "MongoError" /\ code = Some 11000) ->
     errorHandler NODE_ENV err
     = mkResponse 500
         ([("success", JBool false); ("message", JString "Internal server error")]
          ++ (if bool_decide (NODE_ENV = Some "development")
              then [("error", JString message)] else []))) /\
  (forall message stack code,
     err = OtherError "ValidationError" message stack code ->
     errorHandler NODE_ENV err
     = mkResponse 400 [("success", JBool false); ("message", JString "Validation error");
                       ("errors", JString message)]).
Proof.
  split; [|split; [|split; [|split; [|split; [|split; [|split]]]]]].
  - intros s. destruct err; reflexivity.
  - destruct err as [m c s | n m s c]; cbn;
      repeat match goal with
             | |- context [if ?b then _ else _] => destruct b; cbn
             end;
      repeat constructor.
  - intros name message stack code message' -> Hname Henv. cbn.
    destruct (String.eqb_spec name "ValidationError"); [contradiction|].
    rewrite (bool_decide_eq_false_2 (NODE_ENV = Some "development") Henv). reflexivity.
  - destruct err as [m c s | n m s c]; cbn [errorHandler err_message].
    + exists m, []. cbn. auto.
    + destruct (String.eqb n "ValidationError").
      { exists "Validation error", [("errors", JString m)]. cbn. auto. }
      destruct (String.eqb n "CastError").
      { exists "Invalid ID format", []. cbn. auto. }
      destruct (String.eqb n "MongoError" && bool_decide (c = Some 11000)).
      { exists "Duplicate entry found", []. cbn. auto. }
      destruct (bool_decide (NODE_ENV = Some "development")).
      * exists "Internal server error", [("error", JString m)]. cbn. auto.
      * exists "Internal server error", []. cbn. auto.
  - intros message statusCode stack ->. reflexivity.
  - intros name message stack code ->. cbn [errorHandler].
    repeat match goal with
           | |- context [if ?b then _ else _] => destruct b; cbn [status]
           end; cbn [status]; repeat constructor.
  - intros name message stack code -> Hvalidation Hcast Hduplicate. cbn [errorHandler].
    destruct (String.eqb_spec name "ValidationError"); [contradiction|].
    destruct (String.eqb_spec name "CastError"); [contradiction|].
    destruct (String.eqb_spec name "MongoError") as [Hmongo|]; cbn [andb]; [|reflexivity].
    destruct (bool_decide (code = Some 11000)) eqn:Hcode; [|reflexivity].
    apply bool_decide_eq_true in Hcode. exfalso. apply Hduplicate. split; assumption.
  - intros message stack code ->. reflexivity.
Qed.

(** C10.  Once [authenticate] has attached an editor or a viewer, the DELETE
    route stops at [authorize] with status 403: the later handlers do not run
    and the database is as before, although [ROLE_PERMISSIONS] grants the
    editor role ["delete"]. *)
Theorem delete_unreachable_for_non_admin
    (originalUrl : string) (req req' : Request) (db db' : Database) (u : TokenPayload) :
  authenticate jwt_verify captured_stack req db = (Next req', db') ->
  user req' = Some u ->
  role u = editor \/ role u = viewer ->
  let o := run_route NODE_ENV (delete_route jwt_verify captured_stack isMongoId)
                     originalUrl req db in
  status (response o) = 403 /\
  ran o = ["authenticate"; "authorize"] /\
  database o = db /\
  hasPermission editor "delete" = true.
Proof.
  intros Hauth Hu Hrole.
  pose proof (authenticate_database req db) as Hdb. rewrite Hauth in Hdb. cbn in Hdb. subst db'.
  cbn. rewrite Hauth. cbn. unfold authorize. rewrite Hu.
  assert (Hinc : includes [admin] (role u) = false).
  { destruct Hrole as [-> | ->]; reflexivity. }
  rewrite Hinc. cbn. auto.
Qed.

End WithLibraries.

(** The contract at the editor's token, at an expired token, and for the
    editor against an admin-only route. *)
Lemma authgate_contract_witness :
  authenticate sample_jwt "" (bearer "editor.jwt") sample_db
  = (Next (set_user (bearer "editor.jwt") (mkPayload "u2" "ed@example.com" editor)), sample_db) /\
  authenticate sample_jwt "" (bearer "expired.jwt") sample_db
  = (NextError (AppError "Invalid or expired token." 401 ""), sample_db) /\
  fst (authorize "" [admin]
         (set_user (bearer "editor.jwt") (mkPayload "u2" "ed@example.com" editor)) sample_db)
  = NextError (AppError "Access denied. Required role(s): admin. Your role: editor" 403 "").
Proof.
  destruct (authgate_contract sample_jwt "" (bearer "editor.jwt") sample_db
              "Bearer editor.jwt" "editor.jwt" eq_refl eq_refl eq_refl) as (Hok & _ & Hz).
  destruct (authgate_contract sample_jwt "" (bearer "expired.jwt") sample_db
              "Bearer expired.jwt" "expired.jwt" eq_refl eq_refl eq_refl) as (_ & Hbad & _).
  split; [|split].
  - apply (Hok _ (mkUser true)); reflexivity.
  - apply Hbad. right. left. reflexivity.
  - rewrite (Hz [admin] (mkPayload "u2" "ed@example.com" editor) sample_db). reflexivity.
Defined.

(** C6 as stated fails: a malformed and an expired token get the very same
    rejection, and an editor, whose permission set holds ["delete"], is
    refused by the delete route's [authorize]. *)
Lemma authgate_merges_token_errors :
  sample_jwt "garbage" = JsonWebTokenError /\
  sample_jwt "expired.jwt" = TokenExpiredError /\
  fst (authenticate sample_jwt "" (bearer "garbage") sample_db)
  = fst (authenticate sample_jwt "" (bearer "expired.jwt") sample_db) /\
  hasPermission editor "delete" = true /\
  fst (authorize "" [admin]
         (set_user (bearer "editor.jwt") (mkPayload "u2" "ed@example.com" editor)) sample_db)
  = NextError (AppError "Access denied. Required role(s): admin. Your role: editor" 403 "").
Proof. repeat split. Qed.

(** The exposure theorem at a connection failure: in production the answer
    is the fixed 500 and does not depend on the driver's message; in
    development the message is added as [error]. *)
Lemma errorHandler_exposure_witness :
  errorHandler (Some "production")
    (OtherError "MongoNetworkError" "connect ECONNREFUSED 127.0.0.1:27017" "at connect" None)
  = errorHandler (Some "production")
      (OtherError "MongoNetworkError" "" "at connect" None) /\
  errorHandler (Some "production")
    (OtherError "MongoNetworkError" "connect ECONNREFUSED 127.0.0.1:27017" "at connect" None)
  = mkResponse 500 [("success", JBool false); ("message", JString "Internal server error")] /\
  errorHandler (Some "development")
    (OtherError "MongoNetworkError" "connect ECONNREFUSED 127.0.0.1:27017" "at connect" None)
  = mkResponse 500 [("success", JBool false); ("message", JString "Internal server error");
                    ("error", JString "connect ECONNREFUSED 127.0.0.1:27017")].
Proof.
  destruct (errorHandler_exposure (Some "production")
              (OtherError "MongoNetworkError" "connect ECONNREFUSED 127.0.0.1:27017"
                          "at connect" None))
    as (_ & _ & Hquiet & _ & _ & _ & Hfixed & _).
  destruct (errorHandler_exposure (Some "development")
              (OtherError "MongoNetworkError" "connect ECONNREFUSED 127.0.0.1:27017"
                          "at connect" None))
    as (_ & _ & _ & _ & _ & _ & Hshown & _).
  split; [|split].
  - apply (Hquiet _ _ _ _ "" eq_refl); discriminate.
  - apply (Hfixed _ _ _ _ eq_refl); try discriminate. intros [Hname _]. discriminate.
  - apply (Hshown _ _ _ _ eq_refl); try discriminate. intros [Hname _]. discriminate.
Defined.

(** C8 as stated fails: under [NODE_ENV = "development"] the response to an
    unexpected storage error shows the driver's message, and no response
    field carries an error code. *)
Lemma errorHandler_shows_internal_message :
  let err := OtherError "MongoNetworkError" "connect ECONNREFUSED 127.0.0.1:27017"
                        "at connect" None in
  let res := errorHandler (Some "development") err in
  shows res (err_message err) = true /\
  shows res (err_stack err) = false /\
  body_keys res = ["success"; "message"; "error"] /\
  body_keys (errorHandler (Some "production") (AppError "Invalid or expired token." 401 ""))
  = ["success"; "message"] /\
  fst <$> limiter_message = ["success"; "message"].
Proof. repeat split. Qed.

(** The delete route for the sample editor. *)
Lemma delete_unreachable_for_non_admin_witness :
  let o := run_route None (delete_route sample_jwt "" sample_isMongoId)
                     "/api/news/507f1f77bcf86cd799439011" (bearer "editor.jwt") sample_db in
  status (response o) = 403 /\
  ran o = ["authenticate"; "authorize"] /\
  database o = sample_db /\
  hasPermission editor "delete" = true.
Proof.
  apply (delete_unreachable_for_non_admin sample_jwt "" sample_isMongoId None
           "/api/news/507f1f77bcf86cd799439011" (bearer "editor.jwt")
           (set_user (bearer "editor.jwt") (mkPayload "u2" "ed@example.com" editor))
           sample_db sample_db (mkPayload "u2" "ed@example.com" editor)).
  - reflexivity.
  - reflexivity.
  - left. reflexivity.
Defined.

End NewsProofs.

(** * Properties of problem 6: rate limiting *)

Module RateLimitProofs.
Import ScoreBoard.

Local Open Scope string_scope.
Local Open Scope Z_scope.

(** The timestamps the check counts at [now]: the live log without the
    entries the purge removes. *)
Definition window (r : Redis) (key : string) (now windowSize : Z) : list Z :=
  match live r key now with
  | Some z => List.filter (fun s => negb (in_range 0 (now - windowSize) s)) (scores z)
  | None => []
  end.


(** The last of the times, or [lo] when there is none. *)
Fixpoint latest (lo : Z) (times : list Z) : Z :=
  match times with
  | [] => lo
  | t :: rest => latest t rest
  end.


Lemma ceil_div_ge (w : Z) : w <= ceil_div w 1000 * 1000.
Proof.
  unfold ceil_div.
  pose proof (Z.div_mod (- w) 1000 ltac:(lia)).
  pose proof (Z.mod_pos_bound (- w) 1000 ltac:(lia)). lia.
Qed.

Lemma live_insert (r : Redis) (key : string) (z : SortedSet) (now : Z) :
  live (<[key := z]> r) key now = if expired z now then None else Some z.
Proof. unfold live. rewrite lookup_insert_eq. reflexivity. Qed.

Lemma live_delete (r : Redis) (key : string) (now : Z) :
  live (delete key r) key now = None.
Proof. unfold live. rewrite lookup_delete_eq. reflexivity. Qed.

Lemma live_Some_not_expired (r : Redis) (key : string) (now : Z) (z : SortedSet) :
  live r key now = Some z -> expired z now = false.
Proof.
  unfold live. destruct (r !! key) as [z'|]; [|discriminate].
  destruct (expired z' now) eqn:E; [discriminate|]. intros [= <-]. exact E.
Qed.

Lemma zcard_after_purge (key : string) (now w : Z) (r : Redis) :
  zcard key now (zremrangebyscore key 0 (now - w) now r)
  = Z.of_nat (length (window r key now w)).
Proof.
  unfold zremrangebyscore, window, zcard.
  destruct (live r key now) as [z|] eqn:Hlive; [|rewrite live_delete; reflexivity].
  pose proof (live_Some_not_expired _ _ _ _ Hlive) as Hne.
  destruct (List.filter _ (scores z)) as [|s kept]; [rewrite live_delete; reflexivity|].
  rewrite live_insert. unfold expired in *. cbn [expires_at]. rewrite Hne. reflexivity.
Qed.

Lemma record_after_purge (key : string) (now w seconds : Z) (r : Redis) :
  expire key seconds now (zadd key now now (zremrangebyscore key 0 (now - w) now r))
  = <[key := mkSortedSet (window r key now w ++ [now]) (Some (now + seconds * 1000))]> r.
Proof.
  unfold zremrangebyscore, window.
  destruct (live r key now) as [z|] eqn:Hlive.
  - pose proof (live_Some_not_expired _ _ _ _ Hlive) as Hne.
    destruct (List.filter _ (scores z)) as [|s kept].
    + unfold zadd, expire. rewrite live_delete, live_insert. cbn.
      rewrite insert_insert_eq, insert_delete_eq. reflexivity.
    + unfold zadd, expire. rewrite live_insert.
      unfold expired in *. cbn [expires_at]. rewrite Hne.
      rewrite live_insert. unfold expired. cbn [expires_at scores]. rewrite Hne.
      rewrite !insert_insert_eq. reflexivity.
  - unfold zadd, expire. rewrite live_delete, live_insert. cbn.
    rewrite insert_insert_eq, insert_delete_eq. reflexivity.
Qed.

(** The snippet in one equation: purge, count, compare, and on success
    record [now] and renew the expiry. *)
Lemma checkRateLimit_unfold (limit w : Z) (u a : string) (now : Z) (r : Redis) :
  checkRateLimit limit w u a now r =
  let key := rate_limit_key u a in
  if limit <=? Z.of_nat (length (window r key now w))
  then (Throw RATE_LIMIT_EXCEEDED, zremrangebyscore key 0 (now - w) now r)
  else (Ok tt,
        <[key := mkSortedSet (window r key now w ++ [now])
                             (Some (now + ceil_div w 1000 * 1000))]> r).
Proof.
  unfold checkRateLimit. cbn zeta.
  rewrite zcard_after_purge, record_after_purge. reflexivity.
Qed.

(** Sliding window: the request at [now] is let through exactly when fewer than
    [limit] recorded requests lie in the window that ends at [now]. *)
Lemma checkRateLimit_decision (limit w : Z) (u a : string) (now : Z) (r : Redis) :
  fst (checkRateLimit limit w u a now r) =
  if Z.of_nat (length (window r (rate_limit_key u a) now w)) <? limit
  then Ok tt else Throw RATE_LIMIT_EXCEEDED.
Proof.
  rewrite checkRateLimit_unfold. cbn zeta.
  destruct (Z.leb_spec limit (Z.of_nat (length (window r (rate_limit_key u a) now w))));
    destruct (Z.ltb_spec (Z.of_nat (length (window r (rate_limit_key u a) now w))) limit);
    try lia; reflexivity.
Qed.








End RateLimitProofs.

(** * Properties of problem 6: request signing and the nonce store *)

Module SigningProofs.
Import ScoreBoard.

Local Open Scope string_scope.
Local Open Scope Z_scope.

(** A keyed function standing in for HMAC-SHA256 on concrete requests. *)
Definition sample_hmac (secret message : string) : string := secret +:+ "#" +:+ message.

Definition sample_principal : Principal :=
  mkPrincipal "user-1" "s3cret" ["EXECUTE_ACTION"].



Section WithHMAC.

Variable HMAC_SHA256 : string -> string -> string.

(** Every run of [verify] ends verified or rejected; the nonce is written in
    the first case only, after it was found absent and the signature matched. *)
Lemma verify_outcome (req : SignedRequest) (p : Principal) (now : Z) (store : NonceStore) :
  (verify HMAC_SHA256 req p now store
     = (Verified, <[nonce req := now + NONCE_TTL_MS]> store) /\
   now - timestamp req < FRESHNESS_MS /\
   nonce_exists store (nonce req) now = false /\
   HMAC_SHA256 (sharedSecret p) (signing_message req p) = signature req) \/
  (exists why, verify HMAC_SHA256 req p now store = (Rejected why, store)).
Proof.
  unfold verify. cbn [verify_step].
  destruct (Z.ltb_spec (now - timestamp req) FRESHNESS_MS) as [Hfresh|_];
    [|right; eexists; reflexivity].
  cbn [verify_step].
  destruct (nonce_exists store (nonce req) now) eqn:Hnonce;
    [right; eexists; reflexivity|].
  cbn [verify_step].
  destruct (String.eqb_spec (HMAC_SHA256 (sharedSecret p) (signing_message req p))
                            (signature req)) as [Hsig|_];
    [|right; eexists; reflexivity].
  left. cbn [verify_step]. auto.
Qed.


End WithHMAC.



End SigningProofs.

(** * Properties of problem 6: zero-trust scoring *)

Module ZeroTrustProofs.
Import ScoreBoard.

Local Open Scope string_scope.
Local Open Scope Z_scope.

(** The fields of [metadata] that [processAction] reads. *)
Definition whitelist : list string := ["taskId"; "completionTime"].

(** Two payloads that differ, if at all, outside the whitelist: in a
    [pointsRequested], a [score], or any other field the client adds. *)
Definition agree_on_whitelist (m1 m2 : Metadata) : Prop :=
  forall k, k ∈ whitelist -> m1 !! k = m2 !! k.

(** A server to run [processAction] on: its tasks and the scores awarded. *)
Record SampleState : Type := mkSample {
  sample_tasks : gmap string Task;
  sample_awarded : list (string * Points)
}.

Definition sample_getTask (st : SampleState) (v : jsval) : option Task :=
  match v with
  | JText taskId => sample_tasks st !! taskId
  | _ => None
  end.

Definition sample_getUserLevel (st : SampleState) (userId : string) : string := "silver".

Definition sample_updateUserScore (userId : string) (points : Points) (st : SampleState)
    : result Rejection unit * SampleState :=
  (Ok tt, mkSample (sample_tasks st) (sample_awarded st ++ [(userId, points)])).

Definition sample_SCORE_TABLE (actionType : string) : Points :=
  if String.eqb actionType "COMPLETE_TASK" then Some (50 # 1)
  else if String.eqb actionType "DAILY_LOGIN" then Some (10 # 1)
  else None.

Definition sample_LEVEL_MULTIPLIERS (level : string) : Points :=
  if String.eqb level "silver" then Some (2 # 1) else Some (1 # 1).

Definition sample_ToNumber (s : string) : option Q := None.

Definition sample_state : SampleState :=
  mkSample (<["task-123" := mkTask "user-1" false]> ∅) [].

Definition honest_metadata : Metadata :=
  <["taskId" := JText "task-123"]> (<["completionTime" := JNumber (45 # 1)]> ∅).

Definition greedy_metadata : Metadata :=
  <["pointsRequested" := JNumber (1000000 # 1)]> honest_metadata.

Section WithServer.

Variable ServerState : Type.
Variable getTask : ServerState -> jsval -> option Task.
Variable getUserLevel : ServerState -> string -> string.
Variable updateUserScore :
  string -> Points -> ServerState -> result Rejection unit * ServerState.
Variable SCORE_TABLE : string -> Points.
Variable LEVEL_MULTIPLIERS : string -> Points.
Variable ToNumber : string -> option Q.

(** C1.  Two requests of the same user and action type whose [metadata]
    agree on [taskId] and [completionTime] get the same answer, the same
    points and the same update of the server's state, whatever else the two
    payloads hold: the points depend on the server's state, the two tables
    and the whitelisted fields only. *)
Theorem zero_trust_noninterference (userId actionType : string) (m1 m2 : Metadata)
    (st : ServerState) :
  agree_on_whitelist m1 m2 ->
  processAction ServerState getTask getUserLevel updateUserScore
                SCORE_TABLE LEVEL_MULTIPLIERS ToNumber userId actionType m1 st
  = processAction ServerState getTask getUserLevel updateUserScore
                  SCORE_TABLE LEVEL_MULTIPLIERS ToNumber userId actionType m2 st.
Proof.
  intros Hagree. unfold processAction, field.
  rewrite (Hagree "taskId") by (unfold whitelist; repeat constructor).
  rewrite (Hagree "completionTime") by (unfold whitelist; repeat constructor).
  reflexivity.
Qed.

End WithServer.

(** The honest request and the one that asks for a million points: both
    are awarded [50 * 1.5 * 2 = 150]. *)
Lemma zero_trust_noninterference_witness :
  fst (processAction SampleState sample_getTask sample_getUserLevel sample_updateUserScore
         sample_SCORE_TABLE sample_LEVEL_MULTIPLIERS sample_ToNumber
         "user-1" "COMPLETE_TASK" greedy_metadata sample_state)
  = fst (processAction SampleState sample_getTask sample_getUserLevel sample_updateUserScore
           sample_SCORE_TABLE sample_LEVEL_MULTIPLIERS sample_ToNumber
           "user-1" "COMPLETE_TASK" honest_metadata sample_state) /\
  fst (processAction SampleState sample_getTask sample_getUserLevel sample_updateUserScore
         sample_SCORE_TABLE sample_LEVEL_MULTIPLIERS sample_ToNumber
         "user-1" "COMPLETE_TASK" honest_metadata sample_state)
  = Ok (Some (50 * (3 # 2) * 2)%Q).
Proof.
  split; [|reflexivity].
  rewrite (zero_trust_noninterference SampleState sample_getTask sample_getUserLevel
             sample_updateUserScore sample_SCORE_TABLE sample_LEVEL_MULTIPLIERS
             sample_ToNumber "user-1" "COMPLETE_TASK" greedy_metadata honest_metadata
             sample_state); [reflexivity|].
  intros k Hk. unfold whitelist in Hk.
  apply elem_of_cons in Hk as [-> | Hk]; [reflexivity|].
  apply elem_of_cons in Hk as [-> | Hk]; [reflexivity|].
  inversion Hk.
Defined.

End ZeroTrustProofs.

(** * Properties of problem 6: the ledger *)

Module LedgerProofs.
Import ScoreBoard.

Local Open Scope string_scope.
Local Open Scope Z_scope.

(** The transaction's whole effect on the committed tables. *)
Definition applied (userId actionType : string) (delta now : Z)
    (before after : Tables) (row : HistoryRow) : Prop :=
  exists user,
    users before !! userId = Some user /\
    row = mkHistoryRow userId actionType delta
                       (current_score user) (current_score user + delta) now /\
    after = mkTables (<[userId := mkUserRow (current_score user + delta)]> (users before))
                     (score_history before ++ [row])
                     (actions before ++ [mkActionRow userId actionType delta now]).

(** All of it, or nothing. *)
Definition all_or_nothing (userId actionType : string) (delta now : Z)
    (db : Database) (out : result Rejection HistoryRow * Database) : Prop :=
  (exists row, fst out = Ok row /\
               applied userId actionType delta now (committed db) (committed (snd out)) row) \/
  (fst out = Throw DATABASE_ERROR /\ committed (snd out) = committed db).

(** One user's rows of [score_history], in commit order. *)
Definition history_of (userId : string) (t : Tables) : list HistoryRow :=
  List.filter (fun r => String.eqb (user_id r) userId) (score_history t).

(** Each row adds its change to the score the previous row left. *)
Fixpoint chained (start : Z) (rows : list HistoryRow) : Prop :=
  match rows with
  | [] => True
  | r :: rest =>
      score_before r = start /\
      score_after r = score_before r + score_change r /\
      chained (score_after r) rest
  end.

(** The score the last row left, or [start]. *)
Fixpoint closing (start : Z) (rows : list HistoryRow) : Z :=
  match rows with
  | [] => start
  | r :: rest => closing (score_after r) rest
  end.

(** Replaying the changes in order. *)
Definition replay (start : Z) (rows : list HistoryRow) : Z :=
  fold_left (fun s r => s + score_change r) rows start.

(** Users start at [current_score = 0] (the column's default) with no
    history; afterwards users register and scores change through the
    transaction only. *)
Inductive reachable : Database -> Prop :=
| reach_initial (t : Tables) :
    (forall u row, users t !! u = Some row -> current_score row = 0) ->
    score_history t = [] ->
    reachable (mkDatabase t None)
| reach_register (db : Database) (userId : string) :
    reachable db ->
    users (committed db) !! userId = None ->
    reachable (mkDatabase (mkTables (<[userId := mkUserRow 0]> (users (committed db)))
                                    (score_history (committed db))
                                    (actions (committed db)))
                          (pending db))
| reach_update (fails : DbOp -> bool) (validScoreChange : Z -> Z -> bool)
    (userId actionType : string) (delta now : Z) (db : Database) :
    reachable db ->
    reachable (snd (updateScore fails validScoreChange userId actionType delta now db)).

(** What every reachable state satisfies, user by user. *)
Definition consistent (t : Tables) : Prop :=
  forall u,
    match users t !! u with
    | Some row => chained 0 (history_of u t) /\ closing 0 (history_of u t) = current_score row
    | None => history_of u t = []
    end.

Definition sample_tables : Tables :=
  mkTables (<["user-1" := mkUserRow 0]> (<["user-2" := mkUserRow 0]> ∅)) [] [].

Definition no_failure (op : DbOp) : bool := false.
Definition any_change (before after : Z) : bool := true.

(** Two committed updates for user-1 around a failed one for user-2. *)
Definition sample_run : Database :=
  let db0 := mkDatabase sample_tables None in
  let db1 := snd (updateScore no_failure any_change "user-1" "COMPLETE_TASK" 50 1000 db0) in
  let db2 := snd (updateScore (fun op => match op with InsertActions => true | _ => false end)
                              any_change "user-2" "DAILY_LOGIN" 10 2000 db1) in
  snd (updateScore no_failure any_change "user-1" "DAILY_LOGIN" 10 3000 db2).

Section WithFaults.

Variable fails : DbOp -> bool.
Variable validScoreChange : Z -> Z -> bool.

(** The transaction commits everything or leaves the committed tables
    alone, and never leaves a transaction open. *)
Lemma updateScore_all_or_nothing (userId actionType : string) (delta now : Z) (db : Database) :
  all_or_nothing userId actionType delta now db
    (updateScore fails validScoreChange userId actionType delta now db) /\
  pending (snd (updateScore fails validScoreChange userId actionType delta now db)) = None.
Proof.
  unfold all_or_nothing, updateScore, score_update_statements, select_user_for_update,
    update_users, insert_score_history, insert_actions, validate_score_change,
    commit_transaction, statement, begin_transaction, rollback.
  unfold mbind, Tx_bind, mret, Tx_ret. cbn.
  destruct (fails SelectForUpdate); cbn; [auto|].
  destruct (users (committed db) !! userId) as [user|] eqn:Huser; cbn; [|auto].
  destruct (validScoreChange _ _); cbn; [|auto].
  destruct (fails UpdateUsers); cbn; [auto|].
  destruct (fails InsertScoreHistory); cbn; [auto|].
  destruct (fails InsertActions); cbn; [auto|].
  destruct (fails CommitTransaction); cbn; [auto|].
  split; [|reflexivity]. left. eexists. split; [reflexivity|].
  exists user. auto.
Qed.

End WithFaults.

Lemma updateScore_retrying_all_or_nothing (attempts : nat) (fails : nat -> DbOp -> bool)
    (validScoreChange : Z -> Z -> bool) (userId actionType : string) (delta now : Z) :
  forall db,
    all_or_nothing userId actionType delta now db
      (updateScore_retrying attempts fails validScoreChange userId actionType delta now db).
Proof.
  induction attempts as [|n IH]; intros db; cbn [updateScore_retrying].
  - right. split; reflexivity.
  - destruct (updateScore_all_or_nothing (fails (S n)) validScoreChange
                userId actionType delta now db) as [Hone _].
    destruct (updateScore (fails (S n)) validScoreChange userId actionType delta now db)
      as [[row|e] db'] eqn:Hrun.
    + exact Hone.
    + destruct Hone as [(row & Hrow & _) | [_ Hsame]]; [discriminate|].
      cbn [snd] in Hsame. specialize (IH db'). unfold all_or_nothing in *.
      rewrite Hsame in IH. exact IH.
Qed.

(** C5.  [updateScore], run once or with retries, either commits all of
    its effects (the user's new score, the [score_history] row and the
    [actions] row) or leaves the committed tables exactly as they were;
    whatever statement fails, no partial change is visible, and a single run
    leaves no transaction open. *)
Theorem commit_atomic (validScoreChange : Z -> Z -> bool)
    (userId actionType : string) (delta now : Z) (db : Database) :
  (forall fails,
     all_or_nothing userId actionType delta now db
       (updateScore fails validScoreChange userId actionType delta now db) /\
     pending (snd (updateScore fails validScoreChange userId actionType delta now db)) = None) /\
  (forall attempts fails,
     all_or_nothing userId actionType delta now db
       (updateScore_retrying attempts fails validScoreChange userId actionType delta now db)).
Proof.
  split.
  - intros fails. apply updateScore_all_or_nothing.
  - intros attempts fails. apply updateScore_retrying_all_or_nothing.
Qed.

(** The sample run: the failed update for user-2 left no trace. *)
Example sample_run_committed :
  users (committed sample_run) !! "user-1" = Some (mkUserRow 60) /\
  users (committed sample_run) !! "user-2" = Some (mkUserRow 0) /\
  score_history (committed sample_run)
  = [mkHistoryRow "user-1" "COMPLETE_TASK" 50 0 50 1000;
     mkHistoryRow "user-1" "DAILY_LOGIN" 10 50 60 3000] /\
  length (actions (committed sample_run)) = 2%nat.
Proof. repeat split. Qed.

Lemma closing_app (rows : list HistoryRow) (r : HistoryRow) :
  forall start, closing start (rows ++ [r]) = score_after r.
Proof. induction rows as [|r0 rows IH]; intros start; cbn; [reflexivity | apply IH]. Qed.

Lemma chained_app (rows : list HistoryRow) (r : HistoryRow) :
  forall start,
    chained start rows ->
    score_before r = closing start rows ->
    score_after r = score_before r + score_change r ->
    chained start (rows ++ [r]).
Proof.
  induction rows as [|r0 rows IH]; intros start Hc Hb Ha; cbn in *.
  - auto.
  - destruct Hc as (H1 & H2 & H3). auto.
Qed.

Lemma chained_replay (rows : list HistoryRow) :
  forall start, chained start rows -> replay start rows = closing start rows.
Proof.
  unfold replay. induction rows as [|r rows IH]; intros start Hc; cbn in *; [reflexivity|].
  destruct Hc as (H1 & H2 & H3). rewrite <- H1, <- H2. apply IH. exact H3.
Qed.

Lemma chained_each (rows : list HistoryRow) :
  forall start, chained start rows ->
    Forall (fun r => score_after r = score_before r + score_change r) rows.
Proof.
  induction rows as [|r rows IH]; intros start Hc; cbn in *; constructor.
  - tauto.
  - apply (IH (score_after r)). tauto.
Qed.

Lemma chained_consecutive (rows : list HistoryRow) :
  forall start (k : nat) (r r' : HistoryRow),
    chained start rows ->
    rows !! k = Some r -> rows !! S k = Some r' ->
    score_before r' = score_after r.
Proof.
  induction rows as [|r0 rows IH]; intros start k r r' Hc Hk Hk'; [discriminate|].
  destruct Hc as (H1 & H2 & H3). destruct k as [|k].
  - injection Hk as <-. destruct rows as [|r1 rows]; [discriminate|].
    injection Hk' as <-. cbn in H3. tauto.
  - exact (IH _ k r r' H3 Hk Hk').
Qed.

Lemma history_of_app (u : string) (t : Tables) (row : HistoryRow) (us : gmap string UserRow)
    (acts : list ActionRow) :
  history_of u (mkTables us (score_history t ++ [row]) acts)
  = (history_of u t ++ if String.eqb (user_id row) u then [row] else [])%list.
Proof. unfold history_of. cbn. rewrite List.filter_app. reflexivity. Qed.

Lemma applied_consistent (userId actionType : string) (delta now : Z)
    (t t' : Tables) (row : HistoryRow) :
  applied userId actionType delta now t t' row -> consistent t -> consistent t'.
Proof.
  intros (user & Huser & -> & ->) Hcons u.
  rewrite history_of_app. cbn [users user_id].
  specialize (Hcons u).
  destruct (String.eqb_spec userId u) as [<- | Hne].
  - rewrite lookup_insert_eq. rewrite Huser in Hcons. destruct Hcons as [Hc Hcl].
    split.
    + apply chained_app; cbn; [exact Hc | congruence | reflexivity].
    + rewrite closing_app. reflexivity.
  - rewrite lookup_insert_ne by exact Hne. rewrite app_nil_r. exact Hcons.
Qed.

Lemma reachable_consistent (db : Database) : reachable db -> consistent (committed db).
Proof.
  induction 1 as [t Hzero Hempty | db userId _ IH Hfresh
                  | fails valid userId actionType delta now db _ IH].
  - intros u. unfold history_of. cbn. rewrite Hempty. cbn.
    destruct (users t !! u) as [row|] eqn:Hu; [|reflexivity].
    split; [exact I | symmetry; exact (Hzero u row Hu)].
  - intros u. cbn [committed users]. specialize (IH u).
    change (history_of u (mkTables (<[userId := mkUserRow 0]> (users (committed db)))
                                   (score_history (committed db)) (actions (committed db))))
      with (history_of u (committed db)).
    destruct (String.eqb_spec userId u) as [<- | Hne].
    + rewrite lookup_insert_eq. rewrite Hfresh in IH. rewrite IH. cbn. auto.
    + rewrite lookup_insert_ne by exact Hne. exact IH.
  - destruct (updateScore_all_or_nothing fails valid userId actionType delta now db)
      as [[(row & _ & Happlied) | [_ Hsame]] _].
    + exact (applied_consistent _ _ _ _ _ _ _ Happlied IH).
    + rewrite Hsame. exact IH.
Qed.

(** C2.  In every reachable state of the ledger: each committed row has
    [score_after = score_before + score_change]; for each user, a row's
    [score_before] is the [score_after] of that user's previous row; and
    replaying a user's changes in commit order from 0 gives that user's
    [current_score]. *)
Theorem ledger_consistency (db : Database) :
  reachable db ->
  (forall row, row ∈ score_history (committed db) ->
     score_after row = score_before row + score_change row) /\
  (forall u (k : nat) r r',
     history_of u (committed db) !! k = Some r ->
     history_of u (committed db) !! S k = Some r' ->
     score_before r' = score_after r) /\
  (forall u row, users (committed db) !! u = Some row ->
     replay 0 (history_of u (committed db)) = current_score row).
Proof.
  intros Hreach. pose proof (reachable_consistent db Hreach) as Hcons.
  split; [|split].
  - intros row Hin.
    assert (Hmine : In row (history_of (user_id row) (committed db))).
    { unfold history_of. apply List.filter_In. split.
      - apply list_elem_of_In. exact Hin.
      - apply String.eqb_refl. }
    specialize (Hcons (user_id row)).
    destruct (users (committed db) !! user_id row).
    + destruct Hcons as [Hc _]. apply chained_each in Hc.
      rewrite List.Forall_forall in Hc. apply Hc. exact Hmine.
    + rewrite Hcons in Hmine. destruct Hmine.
  - intros u k r r' Hk Hk'. specialize (Hcons u).
    destruct (users (committed db) !! u).
    + destruct Hcons as [Hc _]. exact (chained_consecutive _ _ k r r' Hc Hk Hk').
    + rewrite Hcons in Hk. discriminate.
  - intros u row Hu. specialize (Hcons u). rewrite Hu in Hcons.
    destruct Hcons as [Hc Hcl]. rewrite (chained_replay _ _ Hc). exact Hcl.
Qed.

Lemma sample_run_reachable : reachable sample_run.
Proof.
  unfold sample_run. cbn zeta.
  do 3 apply reach_update. apply reach_initial; [|reflexivity].
  intros u row Hu. unfold sample_tables in Hu. cbn in Hu.
  destruct (String.eqb_spec "user-1" u) as [<- | H1];
    [rewrite lookup_insert_eq in Hu; injection Hu as <-; reflexivity|].
  rewrite lookup_insert_ne in Hu by exact H1.
  destruct (String.eqb_spec "user-2" u) as [<- | H2];
    [rewrite lookup_insert_eq in Hu; injection Hu as <-; reflexivity|].
  rewrite lookup_insert_ne in Hu by exact H2. discriminate.
Defined.

(** The invariant on the sample run: user-1's two rows replay to 60. *)
Lemma ledger_consistency_witness :
  replay 0 (history_of "user-1" (committed sample_run)) = 60 /\
  replay 0 (history_of "user-2" (committed sample_run)) = 0.
Proof.
  destruct (ledger_consistency sample_run sample_run_reachable) as (_ & _ & Hreplay).
  split.
  - exact (Hreplay "user-1" (mkUserRow 60) eq_refl).
  - exact (Hreplay "user-2" (mkUserRow 0) eq_refl).
Defined.

End LedgerProofs.

(** * More on the sliding window: what the log holds *)

Module RateLimitInvariants.
Import ScoreBoard.
Import RateLimitProofs.

Local Open Scope string_scope.
Local Open Scope Z_scope.
Local Open Scope list_scope.

(** Times in non-decreasing order, from [lo] on. *)
Fixpoint in_order (lo : Z) (times : list Z) : Prop :=
  match times with
  | [] => True
  | t :: rest => lo <= t /\ in_order t rest
  end.

(** The times of the requests that passed. *)
Fixpoint accepted (times : list Z) (outcomes : list (result Rejection unit)) : list Z :=
  match times, outcomes with
  | t :: ts, Ok _ :: os => t :: accepted ts os
  | _ :: ts, Throw _ :: os => accepted ts os
  | _, _ => []
  end.

(** Those of [A] inside the window of length [w] that ends at [now]. *)
Definition recent (now w : Z) (A : list Z) : list Z :=
  List.filter (fun s => now - w <? s) A.

Lemma purge_is_recent (now w : Z) (L : list Z) :
  Forall (fun s => 0 <= s) L ->
  List.filter (fun s => negb (in_range 0 (now - w) s)) L = recent now w L.
Proof.
  unfold recent. induction 1 as [|s L Hs _ IH]; [reflexivity|]. cbn.
  rewrite IH. unfold in_range.
  destruct (Z.leb_spec 0 s); [|lia].
  destruct (Z.leb_spec s (now - w)); destruct (Z.ltb_spec (now - w) s); try lia; reflexivity.
Qed.

Lemma purge_purge (t now w : Z) (L : list Z) :
  t <= now ->
  List.filter (fun s => negb (in_range 0 (now - w) s))
              (List.filter (fun s => negb (in_range 0 (t - w) s)) L)
  = List.filter (fun s => negb (in_range 0 (now - w) s)) L.
Proof.
  intros Hle. induction L as [|s L IH]; [reflexivity|]. cbn.
  destruct (in_range 0 (t - w) s) eqn:Ht; cbn.
  - rewrite IH. unfold in_range in *.
    apply andb_true_iff in Ht as [H0 H1]. apply Z.leb_le in H0, H1.
    destruct (Z.leb_spec 0 s); [|lia]. destruct (Z.leb_spec s (now - w)); [|lia].
    reflexivity.
  - rewrite IH. reflexivity.
Qed.

Lemma recent_recent (t now w : Z) (A : list Z) :
  t <= now -> recent now w (recent t w A) = recent now w A.
Proof.
  intros Hle. unfold recent. induction A as [|s A IH]; [reflexivity|]. cbn.
  destruct (Z.ltb_spec (t - w) s); cbn.
  - rewrite IH. reflexivity.
  - rewrite IH. destruct (Z.ltb_spec (now - w) s); [lia | reflexivity].
Qed.

Lemma recent_app (now w : Z) (A B : list Z) :
  recent now w (A ++ B) = recent now w A ++ recent now w B.
Proof. unfold recent. apply List.filter_app. Qed.

Lemma recent_old (now w : Z) (A : list Z) :
  Forall (fun s => s <= now - w) A -> recent now w A = [].
Proof.
  unfold recent. induction 1 as [|s A Hs _ IH]; [reflexivity|]. cbn.
  destruct (Z.ltb_spec (now - w) s); [lia | exact IH].
Qed.

Lemma recent_length_mono (t now w : Z) (A : list Z) :
  t <= now -> (length (recent now w A) <= length (recent t w A))%nat.
Proof.
  intros Hle. rewrite <- (recent_recent t now w A Hle).
  apply List.filter_length_le.
Qed.

Lemma expired_later (z : SortedSet) (t now : Z) :
  t <= now -> expired z t = true -> expired z now = true.
Proof.
  unfold expired. destruct (expires_at z) as [e|]; [|discriminate].
  intros Hle He. apply Z.leb_le in He. apply Z.leb_le. lia.
Qed.

(** A purge at [t] removes nothing that a check at a later [now] would count. *)
Lemma window_after_purge (key : string) (t now w : Z) (r : Redis) :
  t <= now ->
  window (zremrangebyscore key 0 (t - w) t r) key now w = window r key now w.
Proof.
  intros Hle. unfold zremrangebyscore, window at 2, live.
  destruct (r !! key) as [z|] eqn:Hz; cbn.
  - destruct (expired z t) eqn:Ht.
    + rewrite (expired_later z t now Hle Ht).
      unfold window. rewrite live_delete. reflexivity.
    + destruct (List.filter _ (scores z)) as [|s kept] eqn:Hkept.
      * unfold window. rewrite live_delete.
        destruct (expired z now); [reflexivity|].
        rewrite <- (purge_purge t now w (scores z) Hle), Hkept. reflexivity.
      * unfold window. rewrite live_insert. unfold expired at 1. cbn [expires_at scores].
        fold (expired z now). destruct (expired z now); [reflexivity|].
        rewrite <- Hkept. apply purge_purge. exact Hle.
  - unfold window. rewrite live_delete. reflexivity.
Qed.

(** X1. A rejected request leaves no trace: every later decision is the one
    that would have been taken had the rejected request not been made. *)
Theorem rejected_request_leaves_no_trace (limit w : Z) (u a : string) (t now : Z) (r : Redis) :
  fst (checkRateLimit limit w u a t r) = Throw RATE_LIMIT_EXCEEDED ->
  t <= now ->
  forall limit',
    fst (checkRateLimit limit' w u a now (snd (checkRateLimit limit w u a t r)))
    = fst (checkRateLimit limit' w u a now r).
Proof.
  intros Hrej Hle limit'. rewrite !checkRateLimit_decision.
  rewrite checkRateLimit_unfold in Hrej |- *. cbn zeta in *.
  destruct (limit <=? _); [|discriminate]. cbn [snd].
  rewrite (window_after_purge _ t now w r Hle). reflexivity.
Qed.

(** One login a minute: after the login at 10 s, the attempt at 20 s is
    rejected, and the answer at 70 s is the same with or without it. *)
Definition after_first_login : Redis :=
  snd (checkRateLimit 1 60000 "user-1" "DAILY_LOGIN" 10000 ∅).

Lemma rejected_request_leaves_no_trace_witness :
  fst (checkRateLimit 1 60000 "user-1" "DAILY_LOGIN" 70000
         (snd (checkRateLimit 1 60000 "user-1" "DAILY_LOGIN" 20000 after_first_login)))
  = fst (checkRateLimit 1 60000 "user-1" "DAILY_LOGIN" 70000 after_first_login).
Proof.
  apply (rejected_request_leaves_no_trace 1 60000 "user-1" "DAILY_LOGIN" 20000 70000
           after_first_login).
  - vm_compute. reflexivity.
  - lia.
Defined.

(** What holds of the store after the requests accepted so far, [A], the
    latest of them no later than [hi]: at any later time the check counts
    exactly the accepted requests still in the window, never more than the
    limit. *)
Definition log_invariant (limit w : Z) (key : string) (r : Redis) (A : list Z) (hi : Z) : Prop :=
  Forall (fun s => 0 <= s <= hi) A /\
  forall now, hi <= now ->
    window r key now w = recent now w A /\
    Z.of_nat (length (recent now w A)) <= limit.

Lemma log_invariant_step (limit w : Z) (u a : string) (r : Redis) (A : list Z) (hi t : Z) :
  0 < w -> 0 <= hi <= t ->
  log_invariant limit w (rate_limit_key u a) r A hi ->
  let out := checkRateLimit limit w u a t r in
  log_invariant limit w (rate_limit_key u a) (snd out)
                (A ++ accepted [t] [fst out]) t.
Proof.
  intros Hw Ht [Hall Hinv]. cbn zeta.
  rewrite checkRateLimit_unfold. cbn zeta.
  destruct (Hinv t ltac:(lia)) as [Hwin Hcount]. rewrite Hwin.
  destruct (Z.leb_spec limit (Z.of_nat (length (recent t w A)))) as [Hfull|Hroom];
    cbn [fst snd accepted].
  - rewrite app_nil_r. split.
    + eapply Forall_impl; [exact Hall|]. cbn. intros; lia.
    + intros now Hnow. rewrite (window_after_purge _ t now w r Hnow).
      apply Hinv. lia.
  - assert (Hall' : Forall (fun s => 0 <= s <= t) (A ++ [t])).
    { apply Forall_app. split; [|repeat constructor; lia].
      eapply Forall_impl; [exact Hall|]. cbn. intros; lia. }
    split; [exact Hall'|]. intros now Hnow. split.
    + unfold window. rewrite live_insert. unfold expired. cbn [expires_at scores].
      pose proof (ceil_div_ge w).
      destruct (Z.leb_spec (t + ceil_div w 1000 * 1000) now).
      * symmetry. apply recent_old.
        eapply Forall_impl; [exact Hall'|]. cbn. intros; lia.
      * cbn [scores]. rewrite purge_is_recent.
        -- rewrite !recent_app, (recent_recent t now w A Hnow). reflexivity.
        -- apply Forall_app. split; [|repeat constructor; lia].
           unfold recent. apply List.Forall_forall. intros s Hs.
           apply List.filter_In in Hs as [Hs _].
           rewrite List.Forall_forall in Hall. specialize (Hall s Hs). lia.
    + pose proof (recent_length_mono t now w (A ++ [t]) Hnow) as Hmono.
      assert (Hlen : length (recent t w (A ++ [t])) = S (length (recent t w A))).
      { rewrite recent_app, length_app. unfold recent at 2. cbn.
        destruct (Z.ltb_spec (t - w) t); [cbn; lia | lia]. }
      lia.
Qed.

Lemma log_invariant_run (limit w : Z) (u a : string) :
  0 < w ->
  forall (times : list Z) (r : Redis) (A : list Z) (hi : Z),
    0 <= hi ->
    in_order hi times ->
    log_invariant limit w (rate_limit_key u a) r A hi ->
    let run := checkRateLimit_all limit w u a times r in
    log_invariant limit w (rate_limit_key u a) (snd run)
                  (A ++ accepted times (fst run)) (latest hi times).
Proof.
  intros Hw. induction times as [|t rest IH]; intros r A hi Hhi Hord Hinv; cbn zeta.
  - cbn. rewrite app_nil_r. exact Hinv.
  - destruct Hord as [Ht Hrest]. cbn [checkRateLimit_all latest].
    pose proof (log_invariant_step limit w u a r A hi t Hw ltac:(lia) Hinv) as Hstep.
    cbn zeta in Hstep.
    destruct (checkRateLimit limit w u a t r) as [o r1] eqn:Hcheck. cbn [fst snd] in Hstep.
    specialize (IH r1 (A ++ accepted [t] [o]) t ltac:(lia) Hrest Hstep). cbn zeta in IH.
    destruct (checkRateLimit_all limit w u a rest r1) as [os r2]. cbn [fst snd] in *.
    replace (A ++ accepted (t :: rest) (o :: os))
      with ((A ++ accepted [t] [o]) ++ accepted rest os); [exact IH|].
    rewrite <- app_assoc. destruct o; reflexivity.
Qed.

(** X2. The limit holds over every window.  For requests of one identity
    arriving in order on a fresh key, at any time from the latest request on
    the store's log is exactly the accepted requests of the last [w]
    milliseconds, and there are never more than [limit] of them. *)
Theorem limit_holds_over_every_window (limit w : Z) (u a : string) (lo : Z)
    (times : list Z) (r : Redis) :
  0 < w -> 0 <= limit -> 0 <= lo ->
  in_order lo times ->
  r !! rate_limit_key u a = None ->
  let run := checkRateLimit_all limit w u a times r in
  forall now, latest lo times <= now ->
    window (snd run) (rate_limit_key u a) now w = recent now w (accepted times (fst run)) /\
    Z.of_nat (length (recent now w (accepted times (fst run)))) <= limit.
Proof.
  intros Hw Hlimit Hlo Hord Hfresh. cbn zeta.
  assert (Hinit : log_invariant limit w (rate_limit_key u a) r [] lo).
  { split; [constructor|]. intros now _. unfold window, live. rewrite Hfresh.
    cbn. split; [reflexivity | lia]. }
  pose proof (log_invariant_run limit w u a Hw times r [] lo Hlo Hord Hinit) as [_ Hinv].
  exact Hinv.
Qed.

(** Seven requests against two a minute: those at 1 s, 2 s, 61 s and 62.5 s
    pass, and at 63 s the log holds the last two. *)
Definition seven_times : list Z := [1000; 2000; 3000; 61000; 61500; 62500; 63000].

Example seven_requests :
  let run := checkRateLimit_all 2 60000 "user-1" "COMPLETE_TASK" seven_times ∅ in
  accepted seven_times (fst run) = [1000; 2000; 61000; 62500] /\
  window (snd run) (rate_limit_key "user-1" "COMPLETE_TASK") 63000 60000 = [61000; 62500].
Proof. vm_compute. split; reflexivity. Qed.

Lemma limit_holds_over_every_window_witness :
  let run := checkRateLimit_all 2 60000 "user-1" "COMPLETE_TASK" seven_times ∅ in
  window (snd run) (rate_limit_key "user-1" "COMPLETE_TASK") 63000 60000
  = recent 63000 60000 (accepted seven_times (fst run)) /\
  Z.of_nat (length (recent 63000 60000 (accepted seven_times (fst run)))) <= 2.
Proof.
  apply (limit_holds_over_every_window 2 60000 "user-1" "COMPLETE_TASK" 0 seven_times ∅).
  - lia.
  - lia.
  - lia.
  - cbn. lia.
  - apply lookup_empty.
  - cbn. lia.
Defined.

End RateLimitInvariants.

(** * More on request signing *)

Module SigningExtras.
Import ScoreBoard.

Local Open Scope string_scope.
Local Open Scope Z_scope.

Lemma append_assoc (a b c : string) : (a +:+ b) +:+ c = a +:+ (b +:+ c).
Proof. induction a as [|x a IH]; [reflexivity | exact (f_equal (String x) IH)]. Qed.

Lemma length_append (a b : string) :
  String.length (a +:+ b) = (String.length a + String.length b)%nat.
Proof. induction a as [|x a IH]; [reflexivity | exact (f_equal S IH)]. Qed.

(** The request that carries the end of the payload, from a ["|"] on, in
    front of the nonce instead. *)
Definition shifted (req : SignedRequest) (head tail : string) : SignedRequest :=
  mkSigned head (tail +:+ "|" +:+ nonce req) (timestamp req) (signature req).

Section WithHMAC.

Variable HMAC_SHA256 : string -> string -> string.

Lemma shifted_message (req : SignedRequest) (p : Principal) (head tail : string) :
  payload req = head +:+ "|" +:+ tail ->
  signing_message (shifted req head tail) p = signing_message req p.
Proof.
  intros Hsplit. unfold signing_message, shifted. cbn [payload nonce timestamp].
  rewrite Hsplit. rewrite !append_assoc. reflexivity.
Qed.

Lemma shifted_nonce_differs (req : SignedRequest) (head tail : string) :
  nonce (shifted req head tail) <> nonce req.
Proof.
  cbn [shifted nonce]. intros Heq.
  apply (f_equal String.length) in Heq. rewrite !length_append in Heq. cbn in Heq. lia.
Qed.

(** X3. The signed message does not delimit its fields.  After a request
    whose payload has a ["|"] in it was verified, the request that moves the
    end of the payload to the front of the nonce passes all the checks too,
    under the old signature, while the first one's timestamp is fresh: the
    message it signs is the same and its nonce has not been seen. *)
Theorem signature_covers_shifted_request (req : SignedRequest) (p : Principal)
    (head tail : string) (t1 t2 : Z) (store store1 : NonceStore) :
  payload req = head +:+ "|" +:+ tail ->
  verify HMAC_SHA256 req p t1 store = (Verified, store1) ->
  store !! nonce (shifted req head tail) = None ->
  t2 - timestamp req < FRESHNESS_MS ->
  fst (verify HMAC_SHA256 (shifted req head tail) p t2 store1) = Verified.
Proof.
  intros Hsplit Hfirst Hunseen Hfresh.
  destruct (SigningProofs.verify_outcome HMAC_SHA256 req p t1 store)
    as [(Hv & _ & _ & Hsig) | [why Hrej]]; [|rewrite Hrej in Hfirst; discriminate].
  rewrite Hv in Hfirst. injection Hfirst as <-.
  unfold verify. cbn [verify_step].
  change (timestamp (shifted req head tail)) with (timestamp req).
  destruct (Z.ltb_spec (t2 - timestamp req) FRESHNESS_MS); [|lia].
  cbn [verify_step]. unfold nonce_exists.
  rewrite lookup_insert_ne by (apply not_eq_sym, shifted_nonce_differs).
  rewrite Hunseen. cbn [verify_step].
  rewrite (shifted_message req p head tail Hsplit), Hsig.
  change (signature (shifted req head tail)) with (signature req).
  rewrite String.eqb_refl. reflexivity.
Qed.

(** X4. The five steps bound the timestamp from one side only.  A verified
    request whose timestamp lies far enough ahead is verified again once its
    nonce has expired. *)
Theorem future_timestamp_outlives_nonce (req : SignedRequest) (p : Principal)
    (t1 t2 : Z) (store store1 : NonceStore) :
  verify HMAC_SHA256 req p t1 store = (Verified, store1) ->
  t1 + NONCE_TTL_MS <= t2 ->
  t2 - timestamp req < FRESHNESS_MS ->
  fst (verify HMAC_SHA256 req p t2 store1) = Verified.
Proof.
  intros Hfirst Hlate Hfresh.
  destruct (SigningProofs.verify_outcome HMAC_SHA256 req p t1 store)
    as [(Hv & _ & _ & Hsig) | [why Hrej]]; [|rewrite Hrej in Hfirst; discriminate].
  rewrite Hv in Hfirst. injection Hfirst as <-.
  unfold verify. cbn [verify_step].
  destruct (Z.ltb_spec (t2 - timestamp req) FRESHNESS_MS); [|lia].
  cbn [verify_step]. unfold nonce_exists. rewrite lookup_insert_eq.
  destruct (Z.ltb_spec t2 (t1 + NONCE_TTL_MS)); [lia|].
  cbn [verify_step]. rewrite Hsig, String.eqb_refl. reflexivity.
Qed.

End WithHMAC.

Definition piped_request : SignedRequest :=
  mkSigned "{note:a|b}" "nonce-1" 1696672800000
           "s3cret#{note:a|b}|nonce-1|1696672800000|user-1".

Definition far_request : SignedRequest :=
  mkSigned "{}" "nonce-2" 1696676400000 "s3cret#{}|nonce-2|1696676400000|user-1".

Lemma signature_covers_shifted_request_witness :
  fst (verify SigningProofs.sample_hmac (shifted piped_request "{note:a" "b}")
              SigningProofs.sample_principal 1696672802000
              (<["nonce-1" := 1696672801000 + NONCE_TTL_MS]> ∅))
  = Verified.
Proof.
  apply (signature_covers_shifted_request SigningProofs.sample_hmac piped_request
           SigningProofs.sample_principal "{note:a" "b}" 1696672801000 1696672802000 ∅
           (<["nonce-1" := 1696672801000 + NONCE_TTL_MS]> ∅)).
  - reflexivity.
  - vm_compute. reflexivity.
  - vm_compute. reflexivity.
  - vm_compute. reflexivity.
Defined.

Lemma future_timestamp_outlives_nonce_witness :
  fst (verify SigningProofs.sample_hmac far_request SigningProofs.sample_principal
              (1696672801000 + NONCE_TTL_MS)
              (<["nonce-2" := 1696672801000 + NONCE_TTL_MS]> ∅))
  = Verified.
Proof.
  apply (future_timestamp_outlives_nonce SigningProofs.sample_hmac far_request
           SigningProofs.sample_principal 1696672801000 (1696672801000 + NONCE_TTL_MS) ∅
           (<["nonce-2" := 1696672801000 + NONCE_TTL_MS]> ∅)).
  - vm_compute. reflexivity.
  - lia.
  - vm_compute. reflexivity.
Defined.

End SigningExtras.

(** * The gateway guide's verification: no second acceptance *)

Module GatewayGuideProofs.
Import ScoreBoard.
Import GatewayGuide.

Local Open Scope string_scope.
Local Open Scope Z_scope.

Definition sample_headers : Headers :=
  mkHeaders "{}" (Some "s3cret#{}|nonce-1|1696672800000|user-1")
            (Some "nonce-1") (Some 1696672800000).

Section WithHMAC.

Variable HMAC_SHA256 : string -> string -> string.

(** X5. With the timestamp bounded on both sides, a request that was
    verified is never verified again.  Whenever it comes back, whatever the
    secrets then are, it is rejected as a replay while its timestamp is at
    most a minute old and as stale afterwards, and the store stays as it is. *)
Theorem verified_at_most_once (secrets secrets' : gmap string string) (req : Headers)
    (userId : string) (t1 t2 : Z) (store store1 : NonceStore) :
  verify_headers HMAC_SHA256 secrets req userId t1 store = (Ok tt, store1) ->
  t1 <= t2 ->
  exists timestamp,
    X_Timestamp req = Some timestamp /\
    verify_headers HMAC_SHA256 secrets' req userId t2 store1
    = (Throw (if 60 * 1000 <? t2 - timestamp then STALE else REPLAY), store1).
Proof.
  unfold verify_headers. intros Hfirst Hle.
  destruct (X_Signature req) as [sig|]; [|discriminate].
  destruct (X_Nonce req) as [n|]; [|discriminate].
  destruct (X_Timestamp req) as [ts|]; [|discriminate].
  exists ts. split; [reflexivity|].
  destruct (Z.ltb_spec (60 * 1000) (t1 - ts)); [discriminate|].
  destruct (Z.ltb_spec (t1 + CLOCK_SKEW_MS) ts); [discriminate|].
  destruct (nonce_exists store n t1); [discriminate|].
  destruct (secrets !! userId) as [secret|]; [|discriminate].
  destruct (String.eqb _ sig); [|discriminate].
  injection Hfirst as <-.
  destruct (Z.ltb_spec (60 * 1000) (t2 - ts)); [reflexivity|].
  destruct (Z.ltb_spec (t2 + CLOCK_SKEW_MS) ts); [lia|].
  unfold nonce_exists. rewrite lookup_insert_eq.
  unfold NONCE_TTL_MS, CLOCK_SKEW_MS in *.
  destruct (Z.ltb_spec t2 (t1 + 5 * 60 * 1000)); [reflexivity | lia].
Qed.

End WithHMAC.

Lemma verified_at_most_once_witness :
  verify_headers SigningProofs.sample_hmac (<["user-1" := "s3cret"]> ∅) sample_headers
                 "user-1" 1696673101000 (<["nonce-1" := 1696672801000 + NONCE_TTL_MS]> ∅)
  = (Throw STALE, <["nonce-1" := 1696672801000 + NONCE_TTL_MS]> ∅).
Proof.
  destruct (verified_at_most_once SigningProofs.sample_hmac
              (<["user-1" := "s3cret"]> ∅) (<["user-1" := "s3cret"]> ∅) sample_headers
              "user-1" 1696672801000 1696673101000 ∅
              (<["nonce-1" := 1696672801000 + NONCE_TTL_MS]> ∅))
    as (ts & Hts & Hsecond).
  - vm_compute. reflexivity.
  - lia.
  - injection Hts as <-. exact Hsecond.
Defined.

End GatewayGuideProofs.

(** * More on the ledger *)

Module LedgerExtras.
Import ScoreBoard.
Import LedgerProofs.

Local Open Scope string_scope.
Local Open Scope Z_scope.
Local Open Scope list_scope.

(** The same update run [k] times in a row. *)
Fixpoint repeat_update (k : nat) (fails : DbOp -> bool) (validScoreChange : Z -> Z -> bool)
    (userId actionType : string) (delta now : Z) (db : Database) : Database :=
  match k with
  | O => db
  | S n =>
      repeat_update n fails validScoreChange userId actionType delta now
        (snd (updateScore fails validScoreChange userId actionType delta now db))
  end.

Definition always_failing (op : DbOp) : bool := true.

(** The first two runs lose the connection at COMMIT, the third goes through
    (runs are numbered from the number of attempts down to 1). *)
Definition failing_twice (run : nat) (op : DbOp) : bool :=
  match op with
  | CommitTransaction => negb (Nat.eqb run 1)
  | _ => false
  end.

Lemma updateScore_succeeds (fails : DbOp -> bool) (validScoreChange : Z -> Z -> bool)
    (userId actionType : string) (delta now : Z) (db : Database) (user : UserRow) :
  (forall op, fails op = false) ->
  users (committed db) !! userId = Some user ->
  validScoreChange (current_score user) (current_score user + delta) = true ->
  updateScore fails validScoreChange userId actionType delta now db
  = (Ok (mkHistoryRow userId actionType delta (current_score user)
                      (current_score user + delta) now),
     mkDatabase
       (mkTables (<[userId := mkUserRow (current_score user + delta)]> (users (committed db)))
                 (score_history (committed db)
                  ++ [mkHistoryRow userId actionType delta (current_score user)
                                   (current_score user + delta) now])
                 (actions (committed db) ++ [mkActionRow userId actionType delta now]))
       None).
Proof.
  intros Hok Huser Hvalid.
  unfold updateScore, score_update_statements, select_user_for_update,
    update_users, insert_score_history, insert_actions, validate_score_change,
    commit_transaction, statement, begin_transaction, rollback.
  unfold mbind, Tx_bind, mret, Tx_ret. cbn.
  repeat (rewrite ?Hok, ?Huser, ?Hvalid; cbn).
  reflexivity.
Qed.

(** X6. An update for one user leaves every other user alone, and the two
    logs only ever grow at their end. *)
Theorem update_touches_one_user (fails : DbOp -> bool) (validScoreChange : Z -> Z -> bool)
    (userId actionType : string) (delta now : Z) (db : Database) (other : string) :
  other <> userId ->
  let after := committed (snd (updateScore fails validScoreChange userId actionType
                                           delta now db)) in
  users after !! other = users (committed db) !! other /\
  history_of other after = history_of other (committed db) /\
  (exists rows, score_history after = score_history (committed db) ++ rows) /\
  (exists rows, actions after = actions (committed db) ++ rows).
Proof.
  intros Hother. cbn zeta.
  destruct (updateScore_all_or_nothing fails validScoreChange userId actionType delta now db)
    as [[(row & _ & user & _ & -> & ->) | [_ ->]] _].
  - rewrite history_of_app. cbn [users score_history actions user_id].
    rewrite lookup_insert_ne by (apply not_eq_sym; exact Hother).
    destruct (String.eqb_spec userId other) as [Heq|_]; [congruence|].
    rewrite app_nil_r. repeat split; eauto.
  - repeat split; exists []; rewrite app_nil_r; reflexivity.
Qed.

(** X7. No row for a user that is not in [users].  The transaction fails at
    its SELECT, whatever else would have worked, and retrying does not help:
    nothing is committed. *)
Theorem unknown_user_is_never_credited (attempts : nat) (fails : nat -> DbOp -> bool)
    (validScoreChange : Z -> Z -> bool) (userId actionType : string) (delta now : Z)
    (db : Database) :
  users (committed db) !! userId = None ->
  let out := updateScore_retrying attempts fails validScoreChange userId actionType
               delta now db in
  fst out = Throw DATABASE_ERROR /\ committed (snd out) = committed db.
Proof.
  intros Hnone. cbn zeta.
  destruct (updateScore_retrying_all_or_nothing attempts fails validScoreChange
              userId actionType delta now db) as [(row & _ & user & Huser & _) | Hnothing].
  - congruence.
  - exact Hnothing.
Qed.

(** X8. Retrying gets there, once.  If one of the runs meets no failing
    statement, the update is committed, and committed exactly once, however
    many runs failed before it. *)
Theorem retry_commits_once (attempts : nat) (fails : nat -> DbOp -> bool)
    (validScoreChange : Z -> Z -> bool) (userId actionType : string) (delta now : Z)
    (user : UserRow) :
  forall (db : Database) (run : nat),
    (1 <= run <= attempts)%nat ->
    (forall op, fails run op = false) ->
    users (committed db) !! userId = Some user ->
    validScoreChange (current_score user) (current_score user + delta) = true ->
    let out := updateScore_retrying attempts fails validScoreChange userId actionType
                 delta now db in
    let row := mkHistoryRow userId actionType delta (current_score user)
                            (current_score user + delta) now in
    fst out = Ok row /\
    committed (snd out)
    = mkTables (<[userId := mkUserRow (current_score user + delta)]> (users (committed db)))
               (score_history (committed db) ++ [row])
               (actions (committed db) ++ [mkActionRow userId actionType delta now]).
Proof.
  induction attempts as [|n IH]; intros db run Hrun Hok Huser Hvalid; [lia|].
  cbn zeta. cbn [updateScore_retrying].
  destruct (updateScore_all_or_nothing (fails (S n)) validScoreChange
              userId actionType delta now db) as [Hone _].
  destruct (updateScore (fails (S n)) validScoreChange userId actionType delta now db)
    as [[row|e] db'] eqn:Hfirst; unfold all_or_nothing, applied in Hone;
    cbn [fst snd] in Hone |- *.
  - destruct Hone as [(row' & Hrow & user' & Huser' & -> & ->) | [Hno _]]; [|discriminate].
    injection Hrow as ->. rewrite Huser in Huser'. injection Huser' as <-.
    split; reflexivity.
  - destruct Hone as [(row' & Hrow & _) | [_ Hsame]]; [discriminate|].
    assert (Hn : (1 <= run <= n)%nat).
    { destruct (Nat.eq_dec run (S n)) as [-> | ?]; [|lia].
      rewrite (updateScore_succeeds (fails (S n)) validScoreChange userId actionType
                 delta now db user Hok Huser Hvalid) in Hfirst. discriminate. }
    rewrite <- Hsame in Huser.
    specialize (IH db' run Hn Hok Huser Hvalid). cbn zeta in IH.
    rewrite Hsame in IH. exact IH.
Qed.

(** X9. No update is lost.  [k] updates of [delta] in a row, none of them
    failing, raise the score by [k * delta] and add [k] rows to each log. *)
Theorem repeated_updates_add_up (k : nat) (fails : DbOp -> bool)
    (validScoreChange : Z -> Z -> bool) (userId actionType : string) (delta now : Z) :
  forall (db : Database) (user : UserRow),
    (forall op, fails op = false) ->
    (forall before after, validScoreChange before after = true) ->
    users (committed db) !! userId = Some user ->
    let after := committed (repeat_update k fails validScoreChange userId actionType
                                          delta now db) in
    users after !! userId = Some (mkUserRow (current_score user + Z.of_nat k * delta)) /\
    length (score_history after) = (length (score_history (committed db)) + k)%nat /\
    length (history_of userId after) = (length (history_of userId (committed db)) + k)%nat /\
    length (actions after) = (length (actions (committed db)) + k)%nat.
Proof.
  induction k as [|k IH]; intros db user Hok Hvalid Huser; cbn zeta.
  - cbn [repeat_update]. rewrite Huser, !Nat.add_0_r. destruct user as [score].
    cbn [current_score]. replace (score + Z.of_nat 0 * delta) with score by lia. auto.
  - cbn [repeat_update].
    rewrite (updateScore_succeeds fails validScoreChange userId actionType delta now db user
               Hok Huser (Hvalid _ _)). cbn [snd].
    match goal with
    | |- context [repeat_update k _ _ _ _ _ _ ?db1] =>
        destruct (IH db1 (mkUserRow (current_score user + delta)) Hok Hvalid)
          as (Hscore & Hhist & Hmine & Hacts)
    end.
    + cbn. apply lookup_insert_eq.
    + rewrite Hscore, Hhist, Hmine, Hacts.
      cbn [committed users score_history actions current_score].
      rewrite history_of_app. cbn [user_id]. rewrite String.eqb_refl.
      rewrite !length_app. cbn [length].
      repeat split; try lia. f_equal. f_equal. lia.
Qed.

Lemma update_touches_one_user_witness :
  users (committed sample_run) !! "user-2" = Some (mkUserRow 0) /\
  history_of "user-2" (committed sample_run) = [].
Proof.
  unfold sample_run. cbn zeta.
  match goal with
  | |- context [updateScore no_failure any_change "user-1" "DAILY_LOGIN" 10 3000 ?db2] =>
      destruct (update_touches_one_user no_failure any_change "user-1" "DAILY_LOGIN"
                  10 3000 db2 "user-2" ltac:(discriminate)) as (Husers & Hhist & _)
  end.
  cbn zeta in Husers, Hhist. rewrite Husers, Hhist. vm_compute. split; reflexivity.
Defined.

Lemma unknown_user_is_never_credited_witness :
  let out := updateScore_retrying 3 (fun _ => no_failure) any_change "nobody" "COMPLETE_TASK"
               50 1000 (mkDatabase sample_tables None) in
  fst out = Throw DATABASE_ERROR /\ committed (snd out) = sample_tables.
Proof.
  apply (unknown_user_is_never_credited 3 (fun _ => no_failure) any_change "nobody"
           "COMPLETE_TASK" 50 1000 (mkDatabase sample_tables None)).
  vm_compute. reflexivity.
Defined.

Lemma retry_commits_once_witness :
  let out := updateScore_retrying 3 failing_twice any_change "user-1" "COMPLETE_TASK"
               50 1000 (mkDatabase sample_tables None) in
  fst out = Ok (mkHistoryRow "user-1" "COMPLETE_TASK" 50 0 (0 + 50) 1000) /\
  committed (snd out)
  = mkTables (<["user-1" := mkUserRow (0 + 50)]> (users sample_tables))
             ([] ++ [mkHistoryRow "user-1" "COMPLETE_TASK" 50 0 (0 + 50) 1000])
             ([] ++ [mkActionRow "user-1" "COMPLETE_TASK" 50 1000]).
Proof.
  apply (retry_commits_once 3 failing_twice any_change "user-1" "COMPLETE_TASK" 50 1000
           (mkUserRow 0) (mkDatabase sample_tables None) 1%nat).
  - lia.
  - intros []; reflexivity.
  - vm_compute. reflexivity.
  - reflexivity.
Defined.

Lemma repeated_updates_add_up_witness :
  let after := committed (repeat_update 4 no_failure any_change "user-1" "COMPLETE_TASK"
                                        50 1000 (mkDatabase sample_tables None)) in
  users after !! "user-1" = Some (mkUserRow (0 + 4 * 50)) /\
  length (score_history after) = (0 + 4)%nat /\
  length (history_of "user-1" after) = (0 + 4)%nat /\
  length (actions after) = (0 + 4)%nat.
Proof.
  apply (repeated_updates_add_up 4 no_failure any_change "user-1" "COMPLETE_TASK" 50 1000
           (mkDatabase sample_tables None) (mkUserRow 0)).
  - reflexivity.
  - reflexivity.
  - vm_compute. reflexivity.
Defined.

End LedgerExtras.

(** * More on zero-trust scoring *)

Module ZeroTrustExtras.
Import ScoreBoard.
Import ZeroTrustProofs.

Local Open Scope string_scope.
Local Open Scope Z_scope.

Section WithServer.

Variable ServerState : Type.
Variable getTask : ServerState -> jsval -> option Task.
Variable getUserLevel : ServerState -> string -> string.
Variable updateUserScore :
  string -> Points -> ServerState -> result Rejection unit * ServerState.
Variable SCORE_TABLE : string -> Points.
Variable LEVEL_MULTIPLIERS : string -> Points.
Variable ToNumber : string -> option Q.

(** X10. [processAction] does not close the task.  After an award, if the
    score update left the task and the user's level as they were and works
    again, the same request is awarded the same points a second time. *)
Theorem award_repeats (userId actionType : string) (metadata : Metadata)
    (st st1 st2 : ServerState) (points : Points) :
  processAction ServerState getTask getUserLevel updateUserScore
                SCORE_TABLE LEVEL_MULTIPLIERS ToNumber userId actionType metadata st
  = (Ok points, st1) ->
  getTask st1 (field metadata "taskId") = getTask st (field metadata "taskId") ->
  getUserLevel st1 userId = getUserLevel st userId ->
  updateUserScore userId points st1 = (Ok tt, st2) ->
  processAction ServerState getTask getUserLevel updateUserScore
                SCORE_TABLE LEVEL_MULTIPLIERS ToNumber userId actionType metadata st1
  = (Ok points, st2).
Proof.
  unfold processAction. intros Hfirst Htask Hlevel Hagain.
  rewrite Htask, Hlevel.
  destruct (getTask st (field metadata "taskId")) as [task|]; [|discriminate].
  destruct (negb _); [discriminate|].
  destruct (completed task); [discriminate|].
  destruct (updateUserScore userId _ st) as [[[]|e] st'] eqn:Hup; [|discriminate].
  injection Hfirst as Hpoints _. rewrite Hpoints, Hagain. reflexivity.
Qed.

(** X11. An action type the score table does not list is not rejected.  For
    a task that passes the three checks the points are not a number, and that
    is what the score update is called with and what is reported as awarded. *)
Theorem unlisted_action_is_awarded_undefined (userId actionType : string)
    (metadata : Metadata) (st : ServerState) (task : Task) :
  getTask st (field metadata "taskId") = Some task ->
  task_userId task = userId ->
  completed task = false ->
  SCORE_TABLE actionType = None ->
  processAction ServerState getTask getUserLevel updateUserScore
                SCORE_TABLE LEVEL_MULTIPLIERS ToNumber userId actionType metadata st
  = match updateUserScore userId None st with
    | (Ok _, st') => (Ok None, st')
    | (Throw e, st') => (Throw e, st')
    end.
Proof.
  intros Htask Howner Hopen Hunlisted. unfold processAction.
  rewrite Htask, Howner, String.eqb_refl, Hopen, Hunlisted. cbn [negb].
  destruct (less_than _ _ _); reflexivity.
Qed.

End WithServer.

Lemma award_repeats_witness :
  fst (processAction SampleState sample_getTask sample_getUserLevel sample_updateUserScore
         sample_SCORE_TABLE sample_LEVEL_MULTIPLIERS sample_ToNumber
         "user-1" "COMPLETE_TASK" honest_metadata
         (mkSample (sample_tasks sample_state)
                   [("user-1", Some (50 * (3 # 2) * (2 # 1))%Q)]))
  = Ok (Some (50 * (3 # 2) * (2 # 1))%Q).
Proof.
  rewrite (award_repeats SampleState sample_getTask sample_getUserLevel
             sample_updateUserScore sample_SCORE_TABLE sample_LEVEL_MULTIPLIERS
             sample_ToNumber "user-1" "COMPLETE_TASK" honest_metadata sample_state
             (mkSample (sample_tasks sample_state)
                       [("user-1", Some (50 * (3 # 2) * (2 # 1))%Q)])
             (mkSample (sample_tasks sample_state)
                       [("user-1", Some (50 * (3 # 2) * (2 # 1))%Q);
                        ("user-1", Some (50 * (3 # 2) * (2 # 1))%Q)])
             (Some (50 * (3 # 2) * (2 # 1))%Q));
    reflexivity.
Defined.

Lemma unlisted_action_is_awarded_undefined_witness :
  processAction SampleState sample_getTask sample_getUserLevel sample_updateUserScore
    sample_SCORE_TABLE sample_LEVEL_MULTIPLIERS sample_ToNumber
    "user-1" "SHARE_CONTENT" honest_metadata sample_state
  = (Ok None, mkSample (sample_tasks sample_state) [("user-1", None)]).
Proof.
  rewrite (unlisted_action_is_awarded_undefined SampleState sample_getTask
             sample_getUserLevel sample_updateUserScore sample_SCORE_TABLE
             sample_LEVEL_MULTIPLIERS sample_ToNumber "user-1" "SHARE_CONTENT"
             honest_metadata sample_state (mkTask "user-1" false));
    reflexivity.
Defined.

End ZeroTrustExtras.

(** * The cache service: what a read returns *)

Module CacheServiceProofs.
Import CacheService.

Local Open Scope string_scope.
Local Open Scope Z_scope.

Definition sample_stringify (scores : list Z) : string :=
  "[" +:+ String.concat "," (pretty <$> scores) +:+ "]".

(** Enough of [JSON.parse] for the two lists of the example. *)
Definition sample_parse (s : string) : list Z :=
  if String.eqb s "[30,20,10]" then [30; 20; 10]
  else if String.eqb s "[40,30,20]" then [40; 30; 20]
  else [].

Definition sample_top (db : list Z) (n : Z) : list Z := take (Z.to_nat n) db.
Definition sample_user (db : list Z) (userId : string) : list Z := [].

Lemma append_nonempty (a b : string) : a <> "" -> a +:+ b <> "".
Proof. destruct a; [congruence | discriminate]. Qed.

Lemma user_key_is_not_scoreboard_key (userId : string) :
  userScore_key +:+ userId <> scoreboard_key.
Proof. discriminate. Qed.

Lemma user_keys_differ (u u' : string) :
  u <> u' -> userScore_key +:+ u <> userScore_key +:+ u'.
Proof. intros Hne Heq. apply Hne. exact (String.app_inj userScore_key u u' Heq). Qed.

Section WithDatabase.

Variable Database : Type.
Variable Data : Type.
Variable getTopScores : Database -> Z -> Data.
Variable getUserScore_db : Database -> string -> Data.
Variable JSON_stringify : Data -> string.
Variable JSON_parse : string -> Data.

(** X12. After an invalidation the next read is fresh.  Whatever the cache
    held, [getScoreboard] returns what the database holds now and stores it
    for 30 seconds. *)
Theorem read_after_invalidation_is_fresh (db : Database) (now : Z) (c : Cache) :
  getScoreboard Database Data getTopScores JSON_stringify JSON_parse db now
                (invalidateScoreboard c)
  = (getTopScores db 10,
     <[scoreboard_key := (JSON_stringify (getTopScores db 10), now + 30 * 1000)]> c).
Proof.
  unfold getScoreboard, invalidateScoreboard, redis_get, redis_del, redis_setex.
  rewrite lookup_delete_eq. cbn [truthy]. rewrite insert_delete_eq. reflexivity.
Qed.

(** X13. A miss fills the cache for 30 seconds.  After [getScoreboard] read the
    database at [t0], a read before [t0 + 30 s] returns the parsed copy of
    what was stored then and leaves the cache alone, whatever the database
    has become; a read from [t0 + 30 s] on goes to the database again. *)
Theorem scoreboard_is_served_for_thirty_seconds (db db' : Database) (t0 t1 : Z) (c : Cache) :
  truthy (redis_get scoreboard_key t0 c) = None ->
  JSON_stringify (getTopScores db 10) <> "" ->
  t0 <= t1 ->
  let filled := snd (getScoreboard Database Data getTopScores JSON_stringify JSON_parse
                                   db t0 c) in
  getScoreboard Database Data getTopScores JSON_stringify JSON_parse db' t1 filled
  = if t1 <? t0 + 30 * 1000
    then (JSON_parse (JSON_stringify (getTopScores db 10)), filled)
    else (getTopScores db' 10,
          <[scoreboard_key := (JSON_stringify (getTopScores db' 10), t1 + 30 * 1000)]> c).
Proof.
  intros Hmiss Hnonempty Hle filled.
  assert (Hfilled : filled
            = <[scoreboard_key := (JSON_stringify (getTopScores db 10), t0 + 30 * 1000)]> c).
  { unfold filled, getScoreboard. rewrite Hmiss. reflexivity. }
  rewrite Hfilled. clear filled Hfilled.
  unfold getScoreboard, redis_get, redis_setex, scoreboard_ttl.
  rewrite lookup_insert_eq.
  destruct (Z.ltb_spec t1 (t0 + 30 * 1000)).
  - destruct (JSON_stringify (getTopScores db 10)) eqn:Hs; [congruence|]. reflexivity.
  - cbn [truthy]. rewrite insert_insert_eq. reflexivity.
Qed.

(** X14. The entries do not interfere.  Reading one user's score, or the
    scoreboard, never changes what is cached for another user, and a user's
    read never changes the cached scoreboard. *)
Theorem cache_entries_are_separate (userId other : string) (db : Database) (now : Z)
    (c : Cache) :
  userId <> other ->
  let after_user := snd (getUserScore Database Data getUserScore_db JSON_stringify JSON_parse
                                      userId db now c) in
  let after_board := snd (getScoreboard Database Data getTopScores JSON_stringify JSON_parse
                                        db now c) in
  after_user !! (userScore_key +:+ other) = c !! (userScore_key +:+ other) /\
  after_user !! scoreboard_key = c !! scoreboard_key /\
  after_board !! (userScore_key +:+ other) = c !! (userScore_key +:+ other).
Proof.
  intros Hne. cbn zeta. unfold getUserScore, getScoreboard, redis_setex.
  repeat split.
  - destruct (truthy _); cbn [snd]; [reflexivity|].
    apply lookup_insert_ne, user_keys_differ. exact Hne.
  - destruct (truthy _); cbn [snd]; [reflexivity|].
    apply lookup_insert_ne, user_key_is_not_scoreboard_key.
  - destruct (truthy _); cbn [snd]; [reflexivity|].
    apply lookup_insert_ne, not_eq_sym, user_key_is_not_scoreboard_key.
Qed.

End WithDatabase.

Lemma scoreboard_is_served_for_thirty_seconds_witness :
  getScoreboard (list Z) (list Z) sample_top sample_stringify sample_parse
    [40; 30; 20] 29000
    (snd (getScoreboard (list Z) (list Z) sample_top sample_stringify sample_parse
                        [30; 20; 10] 0 ∅))
  = (if 29000 <? 0 + 30 * 1000
     then (sample_parse (sample_stringify (sample_top [30; 20; 10] 10)),
           snd (getScoreboard (list Z) (list Z) sample_top sample_stringify sample_parse
                              [30; 20; 10] 0 ∅))
     else (sample_top [40; 30; 20] 10,
           <[scoreboard_key := (sample_stringify (sample_top [40; 30; 20] 10),
                                29000 + 30 * 1000)]> ∅)).
Proof.
  apply (scoreboard_is_served_for_thirty_seconds (list Z) (list Z) sample_top
           sample_stringify sample_parse [30; 20; 10] [40; 30; 20] 0 29000 ∅).
  - reflexivity.
  - vm_compute. discriminate.
  - lia.
Defined.

(** The stale list is what comes back at 29 s. *)
Example stale_scoreboard :
  fst (getScoreboard (list Z) (list Z) sample_top sample_stringify sample_parse
         [40; 30; 20] 29000
         (snd (getScoreboard (list Z) (list Z) sample_top sample_stringify sample_parse
                             [30; 20; 10] 0 ∅)))
  = [30; 20; 10].
Proof. vm_compute. reflexivity. Qed.

Lemma cache_entries_are_separate_witness :
  snd (getUserScore (list Z) (list Z) sample_user sample_stringify sample_parse
                    "user-1" [30; 20; 10] 0 ∅) !! (userScore_key +:+ "user-2")
  = (∅ : Cache) !! (userScore_key +:+ "user-2").
Proof.
  apply (cache_entries_are_separate (list Z) (list Z) sample_top sample_user
           sample_stringify sample_parse "user-1" "user-2" [30; 20; 10] 0 ∅).
  discriminate.
Defined.

End CacheServiceProofs.

(** * The news server: who gets through, and the pages of the list *)

Module NewsAccessProofs.
Import News.
Import NewsAccess.
Import NewsProofs.

Local Open Scope string_scope.
Local Open Scope Z_scope.

(** [s] holds the character [c]. *)
Fixpoint contains (c : ascii) (s : string) : bool :=
  match s with
  | EmptyString => false
  | String x rest => Ascii.eqb x c || contains c rest
  end.

Lemma split_without (sep : ascii) (s : string) :
  contains sep s = false -> split sep s = [s].
Proof.
  induction s as [|x s IH]; [reflexivity|]. cbn [contains split].
  intros H. apply orb_false_elim in H as [Hx Hs].
  rewrite Hx, (IH Hs). reflexivity.
Qed.

Lemma bearer_header (token : string) :
  contains " " token = false ->
  String.prefix "Bearer " ("Bearer " +:+ token) = true /\
  split " "%char ("Bearer " +:+ token) !! 1%nat = Some token.
Proof.
  intros H. split; [destruct token; reflexivity|].
  change ("Bearer " +:+ token)
    with (String "B" (String "e" (String "a" (String "r" (String "e" (String "r"
            (String " " token))))))).
  cbn [split Ascii.eqb Bool.eqb]. rewrite (split_without " " token H). reflexivity.
Qed.

(** The stand-ins for [jwt.sign], the user collection and the password
    check that go with [sample_jwt] and [sample_db]. *)
Definition sample_sign (p : TokenPayload) : string := role_string (role p) +:+ ".jwt".

Definition sample_findOne (email : string) : option Account :=
  if String.eqb email "root@example.com" then Some (mkAccount "u1" "root@example.com" admin true)
  else if String.eqb email "old@example.com" then Some (mkAccount "u9" "old@example.com" editor false)
  else None.

Definition sample_comparePassword (a : Account) (password : string) : bool :=
  String.eqb password "correct horse".

Definition prepend (names : list string) (o : Outcome) : Outcome :=
  mkOutcome (names ++ ran o) (response o) (database o).

Section WithLibraries.

Variable jwt_verify : string -> JwtVerify.
Variable captured_stack : string.
Variable isMongoId : string -> bool.
Variable NODE_ENV : option string.

(** X15. [optionalAuth] never refuses a request and never writes.  It attaches
    the user exactly when [authenticate] would let the request through, with
    the same user, and otherwise passes the request on as it came. *)
Theorem optionalAuth_agrees_with_authenticate (req : Request) (db : Database) :
  optionalAuth jwt_verify req db
  = (match fst (authenticate jwt_verify captured_stack req db) with
     | Next req' => Next req'
     | _ => Next req
     end, db).
Proof.
  unfold optionalAuth, authenticate.
  destruct (authorization req) as [h|]; [|reflexivity].
  destruct (String.prefix "Bearer " h); [|reflexivity]. cbn [negb].
  destruct (split " "%char h !! 1%nat ≫= verifyToken jwt_verify) as [p|]; [|reflexivity].
  destruct (users db !! id p) as [u|]; [|reflexivity].
  destruct (isActive u); reflexivity.
Qed.

(** While the lookup resolves, [authenticate_findById] is [authenticate] on
    the collection the lookup reads. *)
Lemma authenticate_findById_resolved (req : Request) (db : Database) :
  authenticate_findById (fun db i => Ok (users db !! i)) jwt_verify captured_stack req db
  = authenticate jwt_verify captured_stack req db.
Proof.
  unfold authenticate_findById, authenticate, new_AppError.
  destruct (authorization req) as [h|]; [|reflexivity].
  destruct (negb (String.prefix "Bearer " h)); [reflexivity|].
  destruct (split " "%char h !! 1%nat ≫= verifyToken jwt_verify) as [p|]; reflexivity.
Qed.



(** X17. The id check.  Where a route has [idParamValidation,
    handleValidationErrors], the handlers behind them run, on the request
    unchanged, exactly when the id is a Mongo id and no earlier rule
    complained; otherwise the answer is 400 and the database is as before. *)
Theorem id_validation_gate (rest : list Middleware) (originalUrl : string)
    (req : Request) (db : Database) :
  let o := run_route NODE_ENV
             (mkMiddleware "idParamValidation" (idParamValidation isMongoId)
              :: mkMiddleware "handleValidationErrors" handleValidationErrors :: rest)
             originalUrl req db in
  if isMongoId (params_id req) && bool_decide (validationErrors req = [])
  then o = prepend ["idParamValidation"; "handleValidationErrors"]
             (run_route NODE_ENV rest originalUrl req db)
  else status (response o) = 400 /\
       ran o = ["idParamValidation"; "handleValidationErrors"] /\
       database o = db.
Proof.
  cbn zeta. cbn [run_route mw_run mw_name]. unfold idParamValidation.
  destruct (isMongoId (params_id req)); cbn [andb].
  - unfold handleValidationErrors.
    destruct (validationErrors req) as [|e errs] eqn:Herrs.
    + rewrite bool_decide_eq_true_2 by reflexivity. reflexivity.
    + rewrite bool_decide_eq_false_2 by discriminate. cbn. auto.
  - unfold handleValidationErrors, add_validationError. cbn [validationErrors].
    destruct (validationErrors req); cbn; auto.
Qed.

(** The DELETE route for a request that passes the four middlewares. *)
Lemma delete_route_for_admin (originalUrl h t : string) (req : Request) (db : Database)
    (p : TokenPayload) (u : UserDoc) :
  authorization req = Some h ->
  String.prefix "Bearer " h = true ->
  split " "%char h !! 1%nat = Some t ->
  jwt_verify t = Decoded p ->
  users db !! id p = Some u ->
  isActive u = true ->
  role p = admin ->
  isMongoId (params_id req) = true ->
  validationErrors req = [] ->
  run_route NODE_ENV (delete_route jwt_verify captured_stack isMongoId) originalUrl req db
  = prepend ["authenticate"; "authorize"; "idParamValidation"; "handleValidationErrors"]
      (match news db !! params_id req with
       | None =>
           mkOutcome ["deleteNews"]
             (errorHandler NODE_ENV (AppError "News not found" 404 captured_stack)) db
       | Some _ =>
           mkOutcome ["deleteNews"]
             (mkResponse 200 [("success", JBool true);
                              ("message", JString "News deleted successfully")])
             (mkDb (users db) (delete (params_id req) (news db)))
       end).
Proof.
  intros Hh Hpre Ht Hp Hu Hact Hrole Hid Herrs.
  assert (Hauth : authenticate jwt_verify captured_stack req db
                  = (Next (set_user req p), db)).
  { unfold authenticate. rewrite Hh, Hpre, Ht. cbn.
    unfold verifyToken. rewrite Hp, Hu, Hact. reflexivity. }
  assert (Hauthz : authorize captured_stack [admin] (set_user req p) db
                   = (Next (set_user req p), db)).
  { unfold authorize, includes. cbn [user set_user]. rewrite Hrole.
    rewrite bool_decide_eq_true_2 by apply list_elem_of_here. reflexivity. }
  assert (Hidv : idParamValidation isMongoId (set_user req p) db
                 = (Next (set_user req p), db)).
  { unfold idParamValidation. cbn [params_id set_user]. rewrite Hid. reflexivity. }
  assert (Hval : handleValidationErrors (set_user req p) db = (Next (set_user req p), db)).
  { unfold handleValidationErrors. cbn [validationErrors set_user]. rewrite Herrs.
    reflexivity. }
  cbn [run_route delete_route mw_run mw_name].
  rewrite Hauth, Hauthz, Hidv, Hval. unfold deleteNews, new_AppError.
  cbn [params_id set_user].
  destruct (news db !! params_id req); reflexivity.
Qed.

(** X18. An administrator deletes an article once.  With an administrator's
    token, a well-formed id and the article in the collection, the DELETE
    route runs all five handlers, answers 200 and removes that article and
    nothing else; the same request again finds nothing, answers 404 and
    changes nothing. *)
Theorem admin_deletes_once (originalUrl h t : string) (req : Request) (db : Database)
    (p : TokenPayload) (u : UserDoc) (article : NewsDoc) :
  authorization req = Some h ->
  String.prefix "Bearer " h = true ->
  split " "%char h !! 1%nat = Some t ->
  jwt_verify t = Decoded p ->
  users db !! id p = Some u ->
  isActive u = true ->
  role p = admin ->
  isMongoId (params_id req) = true ->
  validationErrors req = [] ->
  news db !! params_id req = Some article ->
  let route := delete_route jwt_verify captured_stack isMongoId in
  let o := run_route NODE_ENV route originalUrl req db in
  let again := run_route NODE_ENV route originalUrl req (database o) in
  status (response o) = 200 /\
  ran o = ["authenticate"; "authorize"; "idParamValidation"; "handleValidationErrors";
           "deleteNews"] /\
  database o = mkDb (users db) (delete (params_id req) (news db)) /\
  status (response again) = 404 /\
  database again = database o.
Proof.
  intros Hh Hpre Ht Hp Hu Hact Hrole Hid Herrs Harticle. cbn zeta.
  rewrite (delete_route_for_admin originalUrl h t req db p u) by assumption.
  rewrite Harticle. cbn [prepend status response ran database app].
  rewrite (delete_route_for_admin originalUrl h t req _ p u) by assumption.
  cbn [news users]. rewrite lookup_delete_eq. cbn. auto.
Qed.

End WithLibraries.

Lemma admin_deletes_once_witness :
  let route := delete_route sample_jwt "" sample_isMongoId in
  let o := run_route None route "/api/news/507f1f77bcf86cd799439011"
                     (bearer "admin.jwt") sample_db in
  let again := run_route None route "/api/news/507f1f77bcf86cd799439011"
                         (bearer "admin.jwt") (database o) in
  status (response o) = 200 /\
  ran o = ["authenticate"; "authorize"; "idParamValidation"; "handleValidationErrors";
           "deleteNews"] /\
  database o = mkDb (users sample_db)
                    (delete (params_id (bearer "admin.jwt")) (news sample_db)) /\
  status (response again) = 404 /\
  database again = database o.
Proof.
  apply (admin_deletes_once sample_jwt "" sample_isMongoId None
           "/api/news/507f1f77bcf86cd799439011" "Bearer admin.jwt" "admin.jwt"
           (bearer "admin.jwt") sample_db (mkPayload "u1" "root@example.com" admin)
           (mkUser true) (mkNews "Breaking news"));
    vm_compute; reflexivity.
Defined.

Section WithAccounts.

Variable findOne : string -> option Account.
Variable comparePassword : Account -> string -> bool.
Variable jwt_sign : TokenPayload -> string.
Variable jwt_verify : string -> JwtVerify.
Variable captured_stack : string.


(** X20. The token of a login opens [authenticate].  If the library verifies
    what it signed for this user, and the user is still stored and active
    when the token comes back in a ["Bearer "] header, [authenticate] passes
    the request on with the id, the email and the role of the account that
    logged in. *)
Theorem login_token_authenticates (email password : string) (r : LoginResponse)
    (req : Request) (db : Database) (u : UserDoc) :
  login findOne comparePassword jwt_sign captured_stack email password = Ok r ->
  (let a := login_user r in
   jwt_verify (jwt_sign (mkPayload (account_id a) (account_email a) (account_role a)))
   = Decoded (mkPayload (account_id a) (account_email a) (account_role a))) ->
  contains " " (login_token r) = false ->
  users db !! account_id (login_user r) = Some u ->
  isActive u = true ->
  authorization req = Some ("Bearer " +:+ login_token r) ->
  findOne email = Some (login_user r) /\
  comparePassword (login_user r) password = true /\
  authenticate jwt_verify captured_stack req db
  = (Next (set_user req (mkPayload (account_id (login_user r))
                                   (account_email (login_user r))
                                   (account_role (login_user r)))), db).
Proof.
  unfold login. intros Hlogin Hverify Hspace Hu Hact Hheader.
  destruct (findOne email) as [a|]; [|discriminate].
  destruct (account_isActive a); [|discriminate]. cbn [negb] in Hlogin.
  destruct (comparePassword a password) eqn:Hpw; [|discriminate]. cbn [negb] in Hlogin.
  injection Hlogin as <-. cbn [login_user login_token] in *.
  repeat split; trivial.
  destruct (bearer_header _ Hspace) as [Hpre Hsplit].
  unfold authenticate. rewrite Hheader, Hpre, Hsplit. cbn.
  unfold verifyToken, generateToken. rewrite Hverify. cbn [id]. rewrite Hu, Hact.
  reflexivity.
Qed.

End WithAccounts.


Lemma login_token_authenticates_witness :
  authenticate sample_jwt "" (bearer "admin.jwt") sample_db
  = (Next (set_user (bearer "admin.jwt") (mkPayload "u1" "root@example.com" admin)),
     sample_db).
Proof.
  apply (login_token_authenticates sample_findOne sample_comparePassword sample_sign
           sample_jwt "" "root@example.com" "correct horse"
           (mkLoginResponse 200 (mkAccount "u1" "root@example.com" admin true) "admin.jwt")
           (bearer "admin.jwt") sample_db (mkUser true));
    vm_compute; reflexivity.
Defined.

(** ** The pages of the list *)

Lemma Math_ceil_div_Z (a b : Z) : 0 < b -> Math_ceil_div a b = - ((- a) / b).
Proof.
  intros Hb. destruct b as [|b|b]; try lia.
  unfold Math_ceil_div, Qceiling, Qdiv, Qmult, Qinv, Qopp, inject_Z, Qfloor.
  cbn [Qnum Qden]. rewrite Z.mul_1_r, Pos.mul_1_l. reflexivity.
Qed.

Lemma ceil_bounds (a b : Z) :
  0 < b -> (Math_ceil_div a b - 1) * b < a <= Math_ceil_div a b * b.
Proof.
  intros Hb. rewrite (Math_ceil_div_Z a b Hb).
  pose proof (Z.div_mod (- a) b ltac:(lia)).
  pose proof (Z.mod_pos_bound (- a) b Hb). nia.
Qed.

Lemma or_default_positive (n d : Z) : 1 <= n -> or_default (Some n) d = n.
Proof. intros Hn. unfold or_default. destruct (Z.eqb_spec n 0); [lia | reflexivity]. Qed.

(** The slice of page [k + 1]. *)
Lemma pages_concat {A : Type} (l : nat) (pages : nat) :
  forall matching : list A,
    (length matching <= pages * l)%nat ->
    concat ((fun k => take l (drop (k * l) matching)) <$> seq 0 pages) = matching.
Proof.
  induction pages as [|pages IH]; intros matching Hlen.
  - destruct matching; [reflexivity | cbn in Hlen; lia].
  - cbn [seq fmap list_fmap concat]. rewrite <- fmap_S_seq, <- list_fmap_compose.
    cbn [drop].
    transitivity (take l matching ++ drop l matching)%list; [|apply take_drop].
    f_equal.
    rewrite <- (IH (drop l matching)) by (rewrite length_drop; lia).
    f_equal. apply list_fmap_ext. intros _ k _. cbn [compose].
    rewrite drop_drop. reflexivity.
Qed.

(** X21. A next page is announced exactly when it holds an article.  For a
    page and a limit of at least 1, [hasNextPage] is true if and only if the
    list for the following page is not empty, and [hasPrevPage] if and only
    if the page is not the first. *)
Theorem next_page_announced_iff_nonempty {A : Type} (page limit : Z) (matching : list A) :
  1 <= page -> 1 <= limit ->
  let p := snd (listNews (Some page) (Some limit) matching) in
  (hasNextPage p = true <-> fst (listNews (Some (page + 1)) (Some limit) matching) <> []) /\
  (hasPrevPage p = true <-> page <> 1).
Proof.
  intros Hpage Hlimit. cbn zeta. unfold listNews.
  rewrite !or_default_positive by lia. cbn [fst snd hasNextPage hasPrevPage].
  pose proof (ceil_bounds (Z.of_nat (length matching)) limit ltac:(lia)) as Hceil.
  split; [|rewrite Z.ltb_lt; lia].
  rewrite Z.ltb_lt.
  replace (page + 1 - 1) with page by lia.
  assert (Hlen : length (take (Z.to_nat limit) (drop (Z.to_nat (page * limit)) matching))
                 = Nat.min (Z.to_nat limit) (length matching - Z.to_nat (page * limit))).
  { rewrite length_take, length_drop. reflexivity. }
  split.
  - intros Hlt Hnil. rewrite Hnil in Hlen. cbn in Hlen. nia.
  - intros Hne.
    destruct (Z.lt_ge_cases page (Math_ceil_div (Z.of_nat (length matching)) limit));
      [trivial|].
    exfalso. apply Hne. apply length_zero_iff_nil. rewrite Hlen. nia.
Qed.

(** X22. The pages cut the list up.  For a limit of at least 1, the lists of
    pages 1 to [totalPages], one after the other, are the matching documents
    in their order, each once; and no page is longer than the limit. *)
Theorem pages_partition_the_list {A : Type} (limit : Z) (matching : list A) :
  1 <= limit ->
  let pages := Z.to_nat (totalPages (snd (listNews (Some 1) (Some limit) matching))) in
  concat ((fun k => fst (listNews (Some (Z.of_nat (S k))) (Some limit) matching))
          <$> seq 0 pages) = matching /\
  forall page, 1 <= page ->
    Z.of_nat (length (fst (listNews (Some page) (Some limit) matching))) <= limit.
Proof.
  intros Hlimit. cbn zeta. split.
  - unfold listNews at 2. rewrite !or_default_positive by lia. cbn [snd totalPages].
    pose proof (ceil_bounds (Z.of_nat (length matching)) limit ltac:(lia)) as Hceil.
    rewrite <- (pages_concat (Z.to_nat limit)
                  (Z.to_nat (Math_ceil_div (Z.of_nat (length matching)) limit)) matching)
      at 2 by nia.
    f_equal. apply list_fmap_ext. intros _ k _. unfold listNews.
    rewrite !or_default_positive by lia. cbn [fst].
    do 2 f_equal. nia.
  - intros page Hpage. unfold listNews. rewrite !or_default_positive by lia. cbn [fst].
    rewrite length_take. lia.
Qed.

Lemma next_page_announced_iff_nonempty_witness :
  hasNextPage (snd (listNews (Some 2) (Some 2) ["a"; "b"; "c"; "d"; "e"])) = true <->
  fst (listNews (Some (2 + 1)) (Some 2) ["a"; "b"; "c"; "d"; "e"]) <> [].
Proof.
  apply (next_page_announced_iff_nonempty 2 2 ["a"; "b"; "c"; "d"; "e"]); lia.
Defined.

Lemma pages_partition_the_list_witness :
  concat ((fun k => fst (listNews (Some (Z.of_nat (S k))) (Some 2)
                           ["a"; "b"; "c"; "d"; "e"]))
          <$> seq 0 (Z.to_nat (totalPages
                                 (snd (listNews (Some 1) (Some 2)
                                         ["a"; "b"; "c"; "d"; "e"])))))
  = ["a"; "b"; "c"; "d"; "e"].
Proof.
  apply (pages_partition_the_list 2 ["a"; "b"; "c"; "d"; "e"]). lia.
Defined.

End NewsAccessProofs.

(** * Sum to n: where the limits bite *)

Module SumToNLimits.
Import SumToN.
Import SumToNProofs.

Local Open Scope string_scope.
Local Open Scope Z_scope.

(** [Number.MAX_SAFE_INTEGER] *)
Definition MAX_SAFE_INTEGER : Z := 2 ^ 53 - 1.

(** An integer above the maximum is refused with the second error. *)
Lemma validateInput_too_large (n : number) (m : Z) (context : option string) :
  Number_isInteger n = true -> 0 <= int_of n -> m < int_of n ->
  validateInput n (Some m) context = Throw (TooLarge n context).
Proof.
  intros Hint H0 Hm. destruct n as [q| |neg]; try discriminate.
  cbn [Number_isInteger int_of] in *.
  unfold validateInput. cbn [Number_isInteger lt_int gt_int]. rewrite Hint.
  apply Qeq_bool_iff in Hint.
  assert (H0' : Qle_bool (inject_Z 0) q = true).
  { apply Qle_bool_iff. rewrite Hint. rewrite <- Zle_Qle. exact H0. }
  rewrite H0'. cbn [negb orb].
  destruct (Qle_bool q (inject_Z m)) eqn:Hle; [|reflexivity].
  apply Qle_bool_iff in Hle. rewrite Hint in Hle. rewrite <- Zle_Qle in Hle. lia.
Qed.

(** Above its limit the recursion is refused in the first call, which any
    stack with room for one call allows. *)
Lemma sum_to_n_c_on_too_large (room : nat) (n : number) :
  Number_isInteger n = true ->
  MAX_SAFE_RECURSIVE_INPUT < int_of n ->
  sum_to_n_c_on (S room) n = Throw (TooLarge n (Some "recursive")).
Proof.
  intros Hint Hover. cbn [sum_to_n_c_on].
  rewrite (validateInput_too_large n _ _ Hint)
    by (unfold MAX_SAFE_RECURSIVE_INPUT in *; lia).
  reflexivity.
Qed.

Lemma formula_bound (z : Z) :
  0 <= z -> (z <= MAX_SAFE_FORMULA_INPUT <-> z * (z + 1) <= 2 * MAX_SAFE_INTEGER).
Proof.
  unfold MAX_SAFE_FORMULA_INPUT, MAX_SAFE_INTEGER. intros Hz.
  change (2 * (2 ^ 53 - 1)) with 18014398509481982. split; intros H.
  - assert (z * (z + 1) <= 134217727 * 134217728) by nia. lia.
  - destruct (Z.le_gt_cases z 134217727); [trivial|].
    assert (134217728 * 134217729 <= z * (z + 1)) by nia. lia.
Qed.

(** X23. The formula's limit is exact.  For a non-negative integer [n],
    [sum_to_n_b] returns if and only if [n * (n + 1)] is at most twice
    [Number.MAX_SAFE_INTEGER], the inequality the limit was derived from;
    what it returns is then [n * (n + 1) / 2], itself a safe integer, and
    otherwise it throws the "too large for formula approach" error. *)
Theorem formula_limit_is_exact (n : number) :
  Number_isInteger n = true ->
  0 <= int_of n ->
  let z := int_of n in
  (z * (z + 1) <= 2 * MAX_SAFE_INTEGER ->
     sum_to_n_b n = Ok ((z * (z + 1)) / 2) /\ (z * (z + 1)) / 2 <= MAX_SAFE_INTEGER) /\
  (2 * MAX_SAFE_INTEGER < z * (z + 1) ->
     sum_to_n_b n = Throw (TooLarge n (Some "formula"))).
Proof.
  intros Hint H0. cbn zeta. split.
  - intros Hfit. pose proof (proj2 (formula_bound (int_of n) H0) Hfit) as Hmax. split.
    + unfold sum_to_n_b.
      rewrite (validateInput_integer n (Some MAX_SAFE_FORMULA_INPUT) _ Hint H0 Hmax).
      cbn. rewrite (eq_int_spec n 0 Hint).
      destruct (Z.eqb_spec (int_of n) 0) as [-> | Hne]; reflexivity.
    + pose proof (gauss_even (int_of n)). lia.
  - intros Hover. unfold sum_to_n_b.
    rewrite (validateInput_too_large n MAX_SAFE_FORMULA_INPUT _ Hint H0); [reflexivity|].
    destruct (Z.le_gt_cases (int_of n) MAX_SAFE_FORMULA_INPUT) as [Hle|]; [|lia].
    apply (formula_bound _ H0) in Hle. lia.
Qed.

(** X24. The recursion gives up first.  For an integer above 10000 and within
    the formula's limit, [sum_to_n_c] throws at its first call, before any
    recursion, while the loop and the formula return the same sum. *)
Theorem recursion_limit_is_the_tighter (n : number) :
  Number_isInteger n = true ->
  MAX_SAFE_RECURSIVE_INPUT < int_of n <= MAX_SAFE_FORMULA_INPUT ->
  sum_to_n_c n = Throw (TooLarge n (Some "recursive")) /\
  sum_to_n_a n = Ok ((int_of n * (int_of n + 1)) / 2) /\
  sum_to_n_b n = Ok ((int_of n * (int_of n + 1)) / 2).
Proof.
  unfold MAX_SAFE_RECURSIVE_INPUT. intros Hint [Hlow Hhigh]. repeat split.
  - rewrite sum_to_n_c_unfold.
    rewrite (validateInput_too_large n _ _ Hint) by (unfold MAX_SAFE_RECURSIVE_INPUT; lia).
    reflexivity.
  - unfold sum_to_n_a.
    rewrite (validateInput_integer n None None Hint ltac:(lia) I). cbn.
    rewrite (eq_int_spec n 0 Hint).
    destruct (Z.eqb_spec (int_of n) 0) as [E | Hne]; [lia|].
    f_equal.
    pose proof (for_loop_closed_form (Z.to_nat (int_of n)) (int_of n) 1 0 ltac:(lia)).
    pose proof (gauss_even (int_of n)). lia.
  - unfold sum_to_n_b.
    rewrite (validateInput_integer n (Some MAX_SAFE_FORMULA_INPUT) _ Hint ltac:(lia) Hhigh).
    cbn. rewrite (eq_int_spec n 0 Hint).
    destruct (Z.eqb_spec (int_of n) 0) as [E | Hne]; [lia | reflexivity].
Qed.

Lemma formula_limit_is_exact_witness :
  sum_to_n_b (of_int 134217728) = Throw (TooLarge (of_int 134217728) (Some "formula")).
Proof.
  apply (formula_limit_is_exact (of_int 134217728)); vm_compute; congruence.
Defined.

Lemma recursion_limit_is_the_tighter_witness :
  sum_to_n_c (of_int 10001) = Throw (TooLarge (of_int 10001) (Some "recursive")) /\
  sum_to_n_a (of_int 10001) = Ok ((int_of (of_int 10001) * (int_of (of_int 10001) + 1)) / 2) /\
  sum_to_n_b (of_int 10001) = Ok ((int_of (of_int 10001) * (int_of (of_int 10001) + 1)) / 2).
Proof.
  apply (recursion_limit_is_the_tighter (of_int 10001)); vm_compute;
    [reflexivity | split; [reflexivity | discriminate]].
Defined.

End SumToNLimits.
